(** * Moderation settings modal and pricing plan card

    A shallow embedding of the state handling of
    [ModerationSettingModal] (provider-type and keyword mutations,
    save-time validation [handleSave], normalisation [formatData]) and of
    the price block of [PlanItem].

    Modelling conventions.
    - A JavaScript string is a [string]: a finite sequence of code units.
      [split], [slice], [join] and [length] act on code units in the source
      and on characters here.
    - A JavaScript object used as a bag of fields ([configs], [params]) is
      a plain object: a [gmap string JsValue] holds its own properties (a
      property present with value [undefined] is a key mapped to
      [VUndefined]), and its prototype is [Object.prototype] with its
      standard members. A read [o[k]] goes through the prototype; spreads
      and object literals copy and define own properties only.
    - [useState] is explicit state passing: a handler maps the current
      [World] to the next one; a handler that throws a [TypeError] yields
      [None].
    - The translation function [t] is kept symbolic (a constructor of
      [Text]).
    - A JavaScript number is an IEEE 754 binary64 value, a [spec_float]
      of precision 53 and maximal exponent 1024; [*] is the correctly
      rounded product [SFmul]. *)

From Stdlib Require Import ZArith Ascii.
From Stdlib Require SpecFloat.
From stdpp Require Import gmap strings list fin_maps.

Local Open Scope string_scope.
Local Open Scope list_scope.

(** ** JavaScript strings, arrays and numbers *)

Module Js.

(** The line feed code unit, ['\n']. *)
Definition LF : Ascii.ascii := Ascii.ascii_of_nat 10.

(** [s.split('\n')]: the pieces between line feeds, never an empty array. *)
Fixpoint split (s : string) : list string :=
  match s with
  | EmptyString => [""]
  | String c rest =>
      if Ascii.eqb c LF then "" :: split rest
      else match split rest with
           | [] => [String c ""]
           | piece :: pieces => String c piece :: pieces
           end
  end.

(** [arr.join('\n')]. *)
Fixpoint join (arr : list string) : string :=
  match arr with
  | [] => ""
  | x :: rest =>
      match rest with
      | [] => x
      | _ :: _ => x +:+ String LF (join rest)
      end
  end.

(** [s.slice(start, stop)] for [0 <= start <= stop]. *)
Definition slice (start stop : nat) (s : string) : string :=
  String.substring start (stop - start) s.

(** [Boolean(s)] for a string: only the empty string is falsy. *)
Definition truthy_string (s : string) : bool :=
  negb (String.eqb s "").

(** [arr.findIndex(p)]: the index of the first element satisfying [p],
    or [-1]. *)
Fixpoint findIndex_from {A : Type} (p : A -> bool) (arr : list A) (i : Z) : Z :=
  match arr with
  | [] => (-1)%Z
  | x :: rest => if p x then i else findIndex_from p rest (i + 1)%Z
  end.

Definition findIndex {A : Type} (p : A -> bool) (arr : list A) : Z :=
  findIndex_from p arr 0%Z.

(** No line feed occurs in [s]. *)
Fixpoint one_line (s : string) : Prop :=
  match s with
  | EmptyString => True
  | String c rest => c <> LF /\ one_line rest
  end.

(** A number: a binary64 floating-point value. *)
Definition number : Type := SpecFloat.spec_float.

(** The number denoted by an integer literal: the double nearest to [n]
    (ties to even). *)
Definition number_of_Z (n : Z) : number :=
  SpecFloat.binary_normalize 53 1024 n 0 false.

(** [x * y]: the product rounded to the nearest double (ties to even). *)
Definition mul (x y : number) : number :=
  SpecFloat.SFmul 53 1024 x y.

(** The integer a number is equal to, when it is finite and whole. *)
Definition integer_value (x : number) : option Z :=
  match x with
  | SpecFloat.S754_zero _ => Some 0%Z
  | SpecFloat.S754_finite s m e =>
      if (0 <=? e)%Z then Some (SpecFloat.cond_Zopp s (Zpos m * 2 ^ e))
      else if (Zpos m mod 2 ^ (- e) =? 0)%Z
           then Some (SpecFloat.cond_Zopp s (Zpos m / 2 ^ (- e)))
           else None
  | _ => None
  end.

(** The 53-bit mantissa of the double equal to the integer [p], for [p]
    below [2^53]: [p] shifted left until its leading bit is bit 52. *)
Definition mantissa (p : positive) : positive :=
  match (53 - Zpos (Pos.size p))%Z with
  | Zpos d => Pos.iter xO p d
  | _ => p
  end.

End Js.

(** ** The moderation settings modal *)

Module Moderation.

(** *** Data model *)

(** Modelled from the spec: the type [ModerationContentConfig] of
    [models/debug], [{ enabled: boolean, preset_response?: string }]. *)
Record ModerationContentConfig := {
  content_enabled : bool;
  preset_response : option string;
}.

(** Modelled from the spec: the values of the [configs] bag of
    [ModerationConfig]: [undefined], a string ([keywords],
    [api_based_extension_id], a dynamic provider field) or a content
    configuration ([inputs_configs], [outputs_configs]). To these the
    reads of the source add [VInherited]: the value that [Object.prototype]
    holds under the property's own name (a built-in function, or
    [Object.prototype] itself under [__proto__]), which [formatData] can
    copy into an own property of the same name. *)
Inductive JsValue :=
| VUndefined
| VString (s : string)
| VContent (c : ModerationContentConfig)
| VInherited.

(** Modelled from the spec: the type [ModerationConfig] of [models/debug].
    [configs] is optional, [None] is [undefined]. *)
Record ModerationConfig := {
  enabled : bool;
  type : string;
  configs : option (gmap string JsValue);
}.

(** A text shown to the user: a call [t(key)] or [t(key, { key: arg })] of
    the translation function, or a string taken from the data. *)
Inductive Text :=
| t (i18n_key : string) (arg : option string)
| Literal (s : string).

(** Modelled from the spec: the label of [models/common], read here as
    [label['en-US']] and [label['zh-Hans']]. *)
Record I18nText := {
  en_US : string;
  zh_Hans : string;
}.

(** Modelled from the spec: a field descriptor [{ variable, label }] of
    [CodeBasedExtensionItem['form_schema']] ([models/common]). *)
Record CodeBasedExtensionForm := {
  variable : string;
  label : I18nText;
}.

(** Modelled from the spec: [CodeBasedExtensionItem] of [models/common],
    an entry [{ name, label, form_schema }] of the fetched list. *)
Record CodeBasedExtensionItem := {
  item_name : string;
  item_label : I18nText;
  item_form_schema : option (list CodeBasedExtensionForm);
}.

Record Provider := {
  key : string;
  name : Text;
  form_schema : option (list CodeBasedExtensionForm);
}.

(** The argument of [notify]. *)
Record ToastProps := {
  toast_type : string;
  message : Text;
}.

(** What a handler can observe and change: the working copy held by
    [useState], the toasts raised through [notify] and the values handed to
    the [onSave] callback, oldest first. *)
Record World := {
  localeData : ModerationConfig;
  toasts : list ToastProps;
  saved : list ModerationConfig;
}.

Definition systemTypes : list string := ["openai_moderation"; "keywords"; "api"].

(** *** Property access and truthiness *)

(** The property names of [Object.prototype]. *)
Definition Object_prototype : list string :=
  ["constructor"; "__defineGetter__"; "__defineSetter__"; "hasOwnProperty";
   "__lookupGetter__"; "__lookupSetter__"; "isPrototypeOf";
   "propertyIsEnumerable"; "toString"; "valueOf"; "__proto__";
   "toLocaleString"].

(** [Object.prototype[k]]: an object for each of its members, [undefined]
    for any other name. *)
Definition inherited (k : string) : JsValue :=
  if bool_decide (k ∈ Object_prototype) then VInherited else VUndefined.

(** [o[k]] on a defined plain object: the own property when there is one,
    else what [Object.prototype] holds under [k]. *)
Definition get (k : string) (o : gmap string JsValue) : JsValue :=
  match o !! k with
  | Some VInherited => inherited k
  | Some v => v
  | None => inherited k
  end.

(** [o?.[k]]. *)
Definition opt_get (k : string) (o : option (gmap string JsValue)) : JsValue :=
  from_option (get k) VUndefined o.

(** [{ ...o }] for an optional object: spreading [undefined] adds nothing. *)
Definition spread (o : option (gmap string JsValue)) : gmap string JsValue :=
  default ∅ o.

(** [Boolean(v)]. *)
Definition truthy (v : JsValue) : bool :=
  match v with
  | VUndefined => false
  | VString s => Js.truthy_string s
  | VContent _ => true
  | VInherited => true
  end.

(** [a || b]. *)
Definition or_else (a b : JsValue) : JsValue :=
  if truthy a then a else b.

(** Truthiness of [v?.enabled]. *)
Definition is_enabled (v : JsValue) : bool :=
  match v with
  | VContent c => content_enabled c
  | _ => false
  end.

(** Truthiness of [c.preset_response]. *)
Definition has_preset_response (c : ModerationContentConfig) : bool :=
  from_option Js.truthy_string false (preset_response c).

(** [systemTypes.findIndex(t => t === type) < 0]. *)
Definition not_system_type (type : string) : bool :=
  (Js.findIndex (fun t => String.eqb t type) systemTypes <? 0)%Z.

(** *** The component's closure *)

Section Component.

(** [locale] comes from the i18n context, [codeBasedExtensionList] from the
    fetch; it is [None] until the fetch resolves. *)
Variable locale : string.
Variable codeBasedExtensionList : option (list CodeBasedExtensionItem).

Definition providers : list Provider :=
  [ {| key := "openai_moderation";
       name := t "appDebug.feature.moderation.modal.provider.openai" None;
       form_schema := None |};
    {| key := "keywords";
       name := t "appDebug.feature.moderation.modal.provider.keywords" None;
       form_schema := None |};
    {| key := "api";
       name := t "common.apiBasedExtension.selector.title" None;
       form_schema := None |} ]
  ++ match codeBasedExtensionList with
     | Some data =>
         map (fun item =>
                {| key := item_name item;
                   name := Literal (if String.eqb locale "zh-Hans"
                                    then zh_Hans (item_label item)
                                    else en_US (item_label item));
                   form_schema := item_form_schema item |}) data
     | None => []
     end.

(** [providers.find(provider => provider.key === localeData.type)]. *)
Definition currentProvider (localeData : ModerationConfig) : option Provider :=
  List.find (fun provider => String.eqb (key provider) (type localeData)) providers.

(** [currentProvider?.form_schema], guarded by the system-type test. *)
Definition dynamic_schema (type : string) (provider : option Provider)
  : option (list CodeBasedExtensionForm) :=
  if not_system_type type then provider ≫= form_schema else None.

(** *** Mutations *)

Definition setLocaleData (d : ModerationConfig) (w : World) : World :=
  {| localeData := d; toasts := toasts w; saved := saved w |}.

Definition handleDataTypeChange (type : string) (w : World) : World :=
  setLocaleData
    {| enabled := enabled (localeData w);
       type := type;
       configs := None |} w.

(** The callback of the [reduce] in [handleDataKeywordsChange]. *)
Definition push_line (prev : list string) (next : string) : list string :=
  let prev :=
    if negb (String.eqb next "") then prev ++ [Js.slice 0 100 next] else prev in
  if String.eqb next "" && negb (bool_decide (last prev = Some ""))
  then prev ++ [next]
  else prev.

Definition handleDataKeywordsChange (value : string) (w : World) : World :=
  let arr := foldl push_line [] (Js.split value) in
  setLocaleData
    {| enabled := enabled (localeData w);
       type := type (localeData w);
       configs :=
         Some (<["keywords" := VString (Js.join (take 100 arr))]>
                 (spread (configs (localeData w)))) |} w.

Definition handleDataContentChange (contentType : string)
    (contentConfig : ModerationContentConfig) (w : World) : World :=
  setLocaleData
    {| enabled := enabled (localeData w);
       type := type (localeData w);
       configs :=
         Some (<[contentType := VContent contentConfig]>
                 (spread (configs (localeData w)))) |} w.

Definition handleDataApiBasedChange (apiBasedExtensionId : string) (w : World) : World :=
  setLocaleData
    {| enabled := enabled (localeData w);
       type := type (localeData w);
       configs :=
         Some (<["api_based_extension_id" := VString apiBasedExtensionId]>
                 (spread (configs (localeData w)))) |} w.

Definition handleDataExtraChange (extraValue : gmap string string) (w : World) : World :=
  setLocaleData
    {| enabled := enabled (localeData w);
       type := type (localeData w);
       configs :=
         Some ((VString <$> extraValue) ∪ spread (configs (localeData w))) |} w.

(** The counter under the keywords text area:
    [(configs?.keywords || '').split('\n').filter(Boolean).length].
    [None] when the stored value is truthy and not a string (no [split]). *)
Definition keywords_line_count (d : ModerationConfig) : option nat :=
  match or_else (opt_get "keywords" (configs d)) (VString "") with
  | VString s => Some (length (filter (fun x => Is_true (Js.truthy_string x)) (Js.split s)))
  | _ => None
  end.

(** *** Normalisation *)

(** [params[k] = v] on the plain object [params], whose only own
    properties are those assigned before. Under [__proto__] the assignment
    reaches the setter inherited from [Object.prototype]: it defines no own
    property. Under any other name it defines or overwrites the own
    property. *)
Definition assign (k : string) (v : JsValue) (params : gmap string JsValue)
  : gmap string JsValue :=
  if String.eqb k "__proto__" then params else <[k := v]> params.

(** The [params] record that [formatData] fills in. *)
Definition format_params (type : string) (provider : option Provider)
    (configs : gmap string JsValue) : gmap string JsValue :=
  let params : gmap string JsValue := ∅ in
  let params :=
    if String.eqb type "keywords"
    then <["keywords" := get "keywords" configs]> params else params in
  let params :=
    if String.eqb type "api"
    then <["api_based_extension_id" := get "api_based_extension_id" configs]> params
    else params in
  match dynamic_schema type provider with
  | Some schema =>
      foldl (fun params form =>
               assign (variable form) (get (variable form) configs) params)
            params schema
  | None => params
  end.

(** [{ enabled: false }]. *)
Definition disabled_content : JsValue :=
  VContent {| content_enabled := false; preset_response := None |}.

(** [formatData(originData)] in a render whose state is [localeData]
    ([currentProvider] is read from the closure). The destructuring of
    [configs!] throws when [configs] is [undefined]: the result is [None]. *)
Definition formatData (localeData originData : ModerationConfig)
  : option ModerationConfig :=
  configs ← configs originData;
  let inputs_configs := get "inputs_configs" configs in
  let outputs_configs := get "outputs_configs" configs in
  let params := format_params (type originData) (currentProvider localeData) configs in
  Some {| type := type originData;
          enabled := enabled originData;
          configs :=
            Some (params ∪
                  <["outputs_configs" := or_else outputs_configs disabled_content]>
                    (<["inputs_configs" := or_else inputs_configs disabled_content]> ∅)) |}.

(** *** Validation and save *)

Definition notify (props : ToastProps) (w : World) : World :=
  {| localeData := localeData w; toasts := toasts w ++ [props]; saved := saved w |}.

Definition onSave (moderationConfig : ModerationConfig) (w : World) : World :=
  {| localeData := localeData w; toasts := toasts w;
     saved := saved w ++ [moderationConfig] |}.

Definition error (message : Text) : ToastProps :=
  {| toast_type := "error"; message := message |}.

(** The tests of the six guards of [handleSave], in source order. A test
    that dereferences [localeData.configs] without [?.] is [None] when
    [configs] is [undefined]. *)

Definition no_direction_enabled (d : ModerationConfig) : bool :=
  negb (is_enabled (opt_get "inputs_configs" (configs d)))
  && negb (is_enabled (opt_get "outputs_configs" (configs d))).

Definition keywords_missing (d : ModerationConfig) : option bool :=
  if String.eqb (type d) "keywords"
  then c ← configs d; Some (negb (truthy (get "keywords" c)))
  else Some false.

Definition api_extension_missing (d : ModerationConfig) : option bool :=
  if String.eqb (type d) "api"
  then c ← configs d; Some (negb (truthy (get "api_based_extension_id" c)))
  else Some false.

(** The [for] loop over [currentProvider.form_schema]: the first descriptor
    whose [configs?.[variable]] is falsy. *)
Fixpoint first_missing (configs : option (gmap string JsValue))
    (form_schema : list CodeBasedExtensionForm) : option CodeBasedExtensionForm :=
  match form_schema with
  | [] => None
  | form :: rest =>
      if negb (truthy (opt_get (variable form) configs)) then Some form
      else first_missing configs rest
  end.

Definition preset_missing (direction : string) (d : ModerationConfig) : option bool :=
  c ← configs d;
  Some match get direction c with
       | VContent content =>
           content_enabled content
           && negb (has_preset_response content)
           && negb (String.eqb (type d) "api")
       | _ => false
       end.

Definition field_required (key : string) : Text :=
  t "appDebug.errorMessage.valueOfVarRequired" (Some key).

Definition handleSave (w : World) : option World :=
  let d := localeData w in
  if no_direction_enabled d
  then Some (notify (error (t "appDebug.feature.moderation.modal.content.condition" None)) w)
  else
    missing ← keywords_missing d;
    if missing : bool
    then Some (notify (error (field_required
                 (if String.eqb locale "en" then "keywords" else "关键词"))) w)
    else
      missing ← api_extension_missing d;
      if missing : bool
      then Some (notify (error (field_required
                   (if String.eqb locale "en" then "API-based Extension"
                    else "基于 API 的扩展"))) w)
      else
        match dynamic_schema (type d) (currentProvider d) ≫= first_missing (configs d) with
        | Some form =>
            Some (notify (error (field_required
                    (if String.eqb locale "en" then en_US (label form)
                     else zh_Hans (label form)))) w)
        | None =>
            missing ← preset_missing "inputs_configs" d;
            if missing : bool
            then Some (notify (error
                   (t "appDebug.feature.moderation.modal.content.errorMessage" None)) w)
            else
              missing ← preset_missing "outputs_configs" d;
              if missing : bool
              then Some (notify (error
                     (t "appDebug.feature.moderation.modal.content.errorMessage" None)) w)
              else
                data ← formatData d d;
                Some (onSave data w)
        end.

End Component.

End Moderation.

(** ** The validator as the specification words it *)

Module Spec.

Import Moderation.

Inductive Direction := inputs | outputs.

(** The field a [MissingRequiredField] error names: one of the two fixed
    fields or a descriptor of the provider's form schema. *)
Inductive Field :=
| keywords
| api_based_extension_id
| dynamic (form : CodeBasedExtensionForm).

Inductive ValidationError :=
| NoDirectionEnabled
| MissingRequiredField (field : Field)
| MissingPresetResponse (direction : Direction).

Definition direction_key (direction : Direction) : string :=
  match direction with
  | inputs => "inputs_configs"
  | outputs => "outputs_configs"
  end.

(** "[<direction>_configs.enabled] is true". *)
Definition direction_enabled (direction : Direction) (config : ModerationConfig) : bool :=
  is_enabled (opt_get (direction_key direction) (configs config)).

(** "[configs[field]] is empty": it reads as unset or as the empty string. *)
Definition empty (field : string) (config : ModerationConfig) : bool :=
  negb (truthy (opt_get field (configs config))).

(** "[preset_response] is empty" for a direction. *)
Definition preset_empty (direction : Direction) (config : ModerationConfig) : bool :=
  match opt_get (direction_key direction) (configs config) with
  | VContent content => negb (has_preset_response content)
  | _ => true
  end.

Definition is_system_type (type : string) : bool :=
  bool_decide (type ∈ ["openai_moderation"; "keywords"; "api"]).

(** The form schema of the provider of the catalog that matches [type]. *)
Definition schema_of (catalog : list Provider) (type : string)
  : option (list CodeBasedExtensionForm) :=
  List.find (fun provider => bool_decide (key provider = type)) catalog ≫= form_schema.

(** The six rules, in order; each yields its error when it is violated. *)
Definition rules (catalog : list Provider)
  : list (ModerationConfig -> option ValidationError) :=
  [ (* 1 *)
    fun config =>
      if direction_enabled inputs config || direction_enabled outputs config
      then None else Some NoDirectionEnabled;
    (* 2 *)
    fun config =>
      if bool_decide (type config = "keywords") && empty "keywords" config
      then Some (MissingRequiredField keywords) else None;
    (* 3 *)
    fun config =>
      if bool_decide (type config = "api") && empty "api_based_extension_id" config
      then Some (MissingRequiredField api_based_extension_id) else None;
    (* 4 *)
    fun config =>
      if is_system_type (type config) then None
      else
        form_schema ← schema_of catalog (type config);
        form ← List.find (fun form => empty (variable form) config) form_schema;
        Some (MissingRequiredField (dynamic form));
    (* 5 *)
    fun config =>
      if direction_enabled inputs config
         && negb (bool_decide (type config = "api"))
         && preset_empty inputs config
      then Some (MissingPresetResponse inputs) else None;
    (* 6 *)
    fun config =>
      if direction_enabled outputs config
         && negb (bool_decide (type config = "api"))
         && preset_empty outputs config
      then Some (MissingPresetResponse outputs) else None ].

(** First failing rule wins. *)
Fixpoint first_error (rules : list (ModerationConfig -> option ValidationError))
    (config : ModerationConfig) : option ValidationError :=
  match rules with
  | [] => None
  | rule :: rest =>
      match rule config with
      | Some e => Some e
      | None => first_error rest config
      end
  end.

(** [validate]: [None] is success. *)
Definition validate (catalog : list Provider) (config : ModerationConfig)
  : option ValidationError :=
  first_error (rules catalog) config.

(** The message under which the modal surfaces each error. *)
Definition describe (locale : string) (e : ValidationError) : Text :=
  match e with
  | NoDirectionEnabled => t "appDebug.feature.moderation.modal.content.condition" None
  | MissingRequiredField keywords =>
      field_required (if String.eqb locale "en" then "keywords" else "关键词")
  | MissingRequiredField api_based_extension_id =>
      field_required (if String.eqb locale "en" then "API-based Extension"
                      else "基于 API 的扩展")
  | MissingRequiredField (dynamic form) =>
      field_required (if String.eqb locale "en" then en_US (label form)
                      else zh_Hans (label form))
  | MissingPresetResponse _ =>
      t "appDebug.feature.moderation.modal.content.errorMessage" None
  end.

End Spec.

(** ** The price block of the pricing plan card *)

Module Pricing.

(** [Plan] is declared in [billing/type], outside these sources; its
    members are the four keys of the [style] table. *)
Inductive Plan := sandbox | professional | team | enterprise.

(** [PlanRange] is declared in [select-plan-range], outside these sources. *)
Inductive PlanRange := monthly | yearly.

(** The field of an [ALL_PLANS] entry that the price block reads, a
    JavaScript number. *)
Record PlanInfo := {
  price : Js.number;
}.

Definition Plan_eqb (a b : Plan) : bool :=
  match a, b with
  | sandbox, sandbox | professional, professional
  | team, team | enterprise, enterprise => true
  | _, _ => false
  end.

Definition PlanRange_eqb (a b : PlanRange) : bool :=
  match a, b with
  | monthly, monthly | yearly, yearly => true
  | _, _ => false
  end.

(** What the price block renders: a translated label, or the number after
    the dollar sign, the number after the "save" label when there is one,
    and the key of the period. *)
Inductive PriceNode :=
| PriceLabel (i18n_key : string)
| PriceAmount (dollars : Js.number) (save : option Js.number) (per : string).

Section PlanItem.

(** The plan table [ALL_PLANS] of [billing/config], outside these sources. *)
Variable ALL_PLANS : Plan -> PlanInfo.

Definition price_block (plan : Plan) (planRange : PlanRange) : list PriceNode :=
  let isFreePlan := Plan_eqb plan sandbox in
  let isEnterprisePlan := Plan_eqb plan enterprise in
  let planInfo := ALL_PLANS plan in
  let isYear := PlanRange_eqb planRange yearly in
  (if isFreePlan then [PriceLabel "billing.plansCommon.free"] else [])
  ++ (if isEnterprisePlan then [PriceLabel "billing.plansCommon.contactSales"] else [])
  ++ (if negb isFreePlan && negb isEnterprisePlan
      then [PriceAmount
              (if isYear then Js.mul (price planInfo) (Js.number_of_Z 10)
               else price planInfo)
              (if isYear then Some (Js.mul (price planInfo) (Js.number_of_Z 2))
               else None)
              ("billing.plansCommon." +:+ (if negb isYear then "month" else "year"))]
      else []).

End PlanItem.

End Pricing.

(** ** Sample data *)

Module Sample.

Import Moderation.

(** The text ["a\nb\n"]. *)
Definition a_b_newline : string :=
  String "a"%char (String Js.LF (String "b"%char (String Js.LF ""))).

(** The text ["a\nb"]. *)
Definition a_b : string :=
  String "a"%char (String Js.LF "b").

(** A freshly opened modal whose working copy has no [configs]. *)
Definition blank (type : string) : World :=
  {| localeData := {| enabled := true; type := type; configs := None |};
     toasts := [];
     saved := [] |}.

(** An enabled direction with a preset response. *)
Definition blocked : JsValue :=
  VContent {| content_enabled := true; preset_response := Some "blocked" |}.

(** The keywords provider with inputs moderation on and no keywords yet. *)
Definition keywords_unfilled : World :=
  {| localeData :=
       {| enabled := true; type := "keywords";
          configs := Some {[ "inputs_configs" := blocked ]} |};
     toasts := [];
     saved := [] |}.

(** A catalog with one code-based extension whose form schema declares
    [api_key] and then [region]. *)
Definition api_key_form : CodeBasedExtensionForm :=
  {| variable := "api_key"; label := {| en_US := "API Key"; zh_Hans := "API 密钥" |} |}.

Definition region_form : CodeBasedExtensionForm :=
  {| variable := "region"; label := {| en_US := "Region"; zh_Hans := "区域" |} |}.

Definition catalog : option (list CodeBasedExtensionItem) :=
  Some [ {| item_name := "dyn-provider";
            item_label := {| en_US := "Dynamic"; zh_Hans := "动态" |};
            item_form_schema := Some [api_key_form; region_form] |} ].



(** The API provider with an extension chosen and inputs moderation on
    without any preset response. *)
Definition api_ready : World :=
  {| localeData :=
       {| enabled := true; type := "api";
          configs :=
            Some (<["api_based_extension_id" := VString "ext-1"]>
                    {[ "inputs_configs" :=
                         VContent {| content_enabled := true;
                                     preset_response := None |} ]}) |};
     toasts := [];
     saved := [] |}.

(** [type = "dyn-provider"] with both fields filled, inputs moderation on
    and a [keywords] field left over from an earlier provider choice. *)
Definition dyn_filled : World :=
  {| localeData :=
       {| enabled := true; type := "dyn-provider";
          configs :=
            Some (<["keywords" := VString "stale"]>
                   (<["region" := VString "eu"]>
                     (<["api_key" := VString "secret"]>
                       {[ "inputs_configs" := blocked ]}))) |};
     toasts := [];
     saved := [] |}.

(** What saving [dyn_filled] hands to [onSave]. *)
Definition dyn_saved : ModerationConfig :=
  {| enabled := true; type := "dyn-provider";
     configs :=
       Some (<["region" := VString "eu"]>
              (<["api_key" := VString "secret"]>
                (<["outputs_configs" := disabled_content]>
                  {[ "inputs_configs" := blocked ]}))) |}.




(** A plan table. *)
Definition plans (plan : Pricing.Plan) : Pricing.PlanInfo :=
  match plan with
  | Pricing.sandbox => {| Pricing.price := Js.number_of_Z 0 |}
  | Pricing.professional => {| Pricing.price := Js.number_of_Z 59 |}
  | Pricing.team => {| Pricing.price := Js.number_of_Z 159 |}
  | Pricing.enterprise => {| Pricing.price := Js.number_of_Z 0 |}
  end.

(** A plan table whose plans cost [2^53 - 1] dollars a month, the value
    of [Number.MAX_SAFE_INTEGER]. *)
Definition costly (plan : Pricing.Plan) : Pricing.PlanInfo :=
  {| Pricing.price := Js.number_of_Z 9007199254740991 |}.

End Sample.

(** ** Invariants used in the proofs *)

(** The keys that [formatData] copies through [params]: an assignment to
    [params.__proto__] defines no property. *)
Definition param_keys (type : string) (provider : option Moderation.Provider)
  : gset string :=
  (if String.eqb type "keywords" then {["keywords"]} else ∅)
  ∪ (if String.eqb type "api" then {["api_based_extension_id"]} else ∅)
  ∪ match Moderation.dynamic_schema type provider with
    | Some schema => list_to_set (Moderation.variable <$> schema) ∖ {["__proto__"]}
    | None => ∅
    end.

(** The field [k] of the [configs] that [formatData] builds from the
    working [configs]: a [params] entry where there is one, else the
    defaulted direction configs, else nothing. *)
Definition formatted_field (type : string) (provider : option Moderation.Provider)
    (configs : gmap string Moderation.JsValue) (k : string)
  : option Moderation.JsValue :=
  if decide (k ∈ param_keys type provider) then Some (Moderation.get k configs)
  else if decide (k = "outputs_configs" \/ k = "inputs_configs")
       then Some (Moderation.or_else (Moderation.get k configs)
                    Moderation.disabled_content)
       else None.

(** What [handleDataKeywordsChange] keeps of a line. *)
Definition keyword_line (x : string) : Prop :=
  Js.one_line x /\ String.length x <= 100.

(** ** The rendered controls of the modal *)

Module ModalView.

Import Moderation.

(** The [value] of the keywords text area,
    [localeData.configs?.keywords || '']. *)
Definition keywords_value (d : ModerationConfig) : JsValue :=
  or_else (opt_get "keywords" (configs d)) (VString "").

(** [showPreset] of both [ModerationContent] blocks: [!(type === 'api')]. *)
Definition showPreset (d : ModerationConfig) : bool :=
  negb (String.eqb (type d) "api").

(** The [config] handed to a [ModerationContent] block:
    [configs?.<direction> || { enabled: false, preset_response: '' }]. *)
Definition content_config (direction : string) (d : ModerationConfig) : JsValue :=
  or_else (opt_get direction (configs d))
    (VContent {| content_enabled := false; preset_response := Some "" |}).

(** The keywords block is rendered under [type === 'keywords']. *)
Definition shows_keywords (d : ModerationConfig) : bool :=
  String.eqb (type d) "keywords".

(** The extension selector is rendered under [type === 'api']. *)
Definition shows_api_selector (d : ModerationConfig) : bool :=
  String.eqb (type d) "api".

Section Render.

Variable locale : string.
Variable codeBasedExtensionList : option (list CodeBasedExtensionItem).

(** [FormGeneration] is rendered, with these [forms], under
    [systemTypes.findIndex(t => t === type) < 0 && currentProvider?.form_schema]. *)
Definition form_generation (d : ModerationConfig)
  : option (list CodeBasedExtensionForm) :=
  dynamic_schema (type d) (currentProvider locale codeBasedExtensionList d).

End Render.

End ModalView.

(** ** The button of the pricing plan card *)

Module PlanCard.

Import Pricing.

(** What a click on the card's button can do. *)
Inductive ClickEffect :=
| ToastNotify (toast_type i18n_key className : string)
| WindowOpen (url target : string).

(** The button text: a translated label, or the "get started with" label
    followed by the plan's name. *)
Inductive ButtonText :=
| Label (i18n_key : string)
| GetStartedWith (plan : Plan).

Section PlanItem.

(** The [level] field of the [ALL_PLANS] entries ([billing/config], outside
    these sources), and [isCurrentWorkspaceManager] of the app context. *)
Variable level : Plan -> Z.
Variable isCurrentWorkspaceManager : bool.

Definition isCurrent (plan currentPlan : Plan) : bool :=
  Plan_eqb plan currentPlan.

Definition isPlanDisabled (plan currentPlan : Plan) : bool :=
  (level plan <=? level currentPlan)%Z.

Definition btnText (plan currentPlan : Plan) : ButtonText :=
  if isCurrent plan currentPlan then Label "billing.plansCommon.currentPlan"
  else match plan with
       | sandbox => Label "billing.plansCommon.startForFree"
       | professional => GetStartedWith plan
       | team => GetStartedWith plan
       | enterprise => Label "billing.plansCommon.talkToSales"
       end.

(** The [onClick] of the button. *)
Definition onClick (plan currentPlan : Plan) (link : string) : list ClickEffect :=
  if isPlanDisabled plan currentPlan then []
  else if negb isCurrentWorkspaceManager
       then [ToastNotify "error" "billing.buyPermissionDeniedTip" "z-[1001]"]
       else [WindowOpen link "_self"].

End PlanItem.

End PlanCard.

(** ** Further invariants used in the proofs *)

(** No empty line directly follows an empty line. *)
Fixpoint no_blank_run (lines : list string) : bool :=
  match lines with
  | [] => true
  | x :: rest =>
      match rest with
      | [] => true
      | y :: _ => negb (String.eqb x "" && String.eqb y "") && no_blank_run rest
      end
  end.

(** * Facts about the string helpers *)

Section JsFacts.

Lemma split_not_nil (s : string) : Js.split s <> [].
Proof.
  destruct s as [|c rest]; simpl; [discriminate|].
  destruct (Ascii.eqb c Js.LF); [discriminate|].
  destruct (Js.split rest); discriminate.
Qed.

Lemma split_one_line (s : string) : Forall Js.one_line (Js.split s).
Proof.
  induction s as [|c rest IH]; simpl.
  - by repeat constructor.
  - destruct (Ascii.eqb_spec c Js.LF) as [->|Hc].
    + by constructor.
    + destruct (Js.split rest) as [|piece pieces].
      * by repeat constructor.
      * inversion_clear IH. by constructor.
Qed.

Lemma split_line (x : string) : Js.one_line x -> Js.split x = [x].
Proof.
  induction x as [|c rest IH]; simpl; [done|].
  intros [Hc Hrest]. destruct (Ascii.eqb_spec c Js.LF); [done|].
  by rewrite IH.
Qed.

Lemma split_line_LF (x rest : string) :
  Js.one_line x -> Js.split (x +:+ String Js.LF rest) = x :: Js.split rest.
Proof.
  induction x as [|c x IH]; simpl.
  - done.
  - intros [Hc Hx]. destruct (Ascii.eqb_spec c Js.LF); [done|].
    by rewrite IH.
Qed.

Lemma split_join (arr : list string) :
  arr <> [] -> Forall Js.one_line arr -> Js.split (Js.join arr) = arr.
Proof.
  induction arr as [|x rest IH]; [done|].
  intros _ Hall. inversion_clear Hall as [|? ? Hx Hrest].
  destruct rest as [|y rest'].
  - by apply split_line.
  - change (Js.join (x :: y :: rest')) with (x +:+ String Js.LF (Js.join (y :: rest'))).
    rewrite split_line_LF by done. f_equal. by apply IH.
Qed.

Lemma substring_one_line (n m : nat) (s : string) :
  Js.one_line s -> Js.one_line (String.substring n m s).
Proof.
  revert n m. induction s as [|c rest IH]; intros n m Hs.
  - by destruct n, m.
  - destruct Hs as [Hc Hrest]. destruct n as [|n].
    + destruct m as [|m]; simpl; [done|]. split; [done|by apply IH].
    + simpl. by apply IH.
Qed.

Lemma substring_length_le (n m : nat) (s : string) :
  String.length (String.substring n m s) <= m.
Proof.
  revert n m. induction s as [|c rest IH]; intros n m.
  - destruct n, m; simpl; lia.
  - destruct n as [|n].
    + destruct m as [|m]; simpl; [lia|]. specialize (IH 0 m). lia.
    + simpl. apply IH.
Qed.

End JsFacts.

(** * The keywords mutation *)

Section Keywords.

Import Moderation.

Lemma push_line_keeps (prev : list string) (next : string) :
  Forall keyword_line prev -> Js.one_line next ->
  Forall keyword_line (push_line prev next).
Proof.
  intros Hprev Hnext. unfold push_line.
  destruct (String.eqb_spec next "") as [->|Hne]; simpl.
  - case_bool_decide; simpl; [done|].
    apply Forall_app; split; [done|]. apply Forall_singleton.
    split; simpl; [done|lia].
  - apply Forall_app; split; [done|]. apply Forall_singleton. split.
    + by apply substring_one_line.
    + unfold Js.slice. pose proof (substring_length_le 0 (100 - 0) next). lia.
Qed.

Lemma reduce_push_line_keeps (lines prev : list string) :
  Forall keyword_line prev -> Forall Js.one_line lines ->
  Forall keyword_line (foldl push_line prev lines).
Proof.
  revert prev. induction lines as [|next rest IH]; intros prev Hprev Hall; simpl.
  - done.
  - inversion_clear Hall. apply IH; [|done]. by apply push_line_keeps.
Qed.

(** The stored string of the mutation, whatever the prior state. *)
Lemma handleDataKeywordsChange_stored (value : string) (w : World) :
  opt_get "keywords" (configs (localeData (handleDataKeywordsChange value w)))
  = VString (Js.join (take 100 (foldl push_line [] (Js.split value)))).
Proof.
  unfold handleDataKeywordsChange, opt_get, get; simpl.
  by rewrite lookup_insert_eq.
Qed.

(** C1. For every input string and every prior state, the string that
    [handleDataKeywordsChange] stores under [configs.keywords] splits on
    line feeds into at most 100 lines, and each of its non-empty lines has
    at most 100 characters. *)
Theorem handleDataKeywordsChange_bounds (value : string) (w : World) :
  exists stored : string,
    opt_get "keywords" (configs (localeData (handleDataKeywordsChange value w)))
    = VString stored
    /\ length (Js.split stored) <= 100
    /\ Forall (fun line => line <> "" -> String.length line <= 100) (Js.split stored).
Proof.
  eexists. split; [apply handleDataKeywordsChange_stored|].
  set (arr := foldl push_line [] (Js.split value)).
  assert (Harr : Forall keyword_line (take 100 arr)).
  { apply Forall_take. apply reduce_push_line_keeps; [constructor|apply split_one_line]. }
  destruct (take 100 arr) as [|x rest] eqn:Htake.
  - simpl. split; [lia|]. by repeat constructor.
  - rewrite split_join; [| done | by eapply Forall_impl; [exact Harr|intros ? []]].
    split.
    + rewrite <- Htake, length_take. lia.
    + eapply Forall_impl; [exact Harr|]. by intros line [_ Hlen] _.
Qed.

End Keywords.

Section KeywordsExample.

Import Moderation.

(** C2, as stated, fails: on ["a\nb\n"] from a state without keywords the
    stored string is not ["a\nb"]. *)
Lemma keywords_trailing_newline_not_collapsed :
  ~ (opt_get "keywords"
       (configs (localeData (handleDataKeywordsChange Sample.a_b_newline
                               (Sample.blank "keywords"))))
     = VString Sample.a_b
     /\ keywords_line_count
          (localeData (handleDataKeywordsChange Sample.a_b_newline
                         (Sample.blank "keywords")))
        = Some 2).
Proof. intros [Hstored _]. vm_compute in Hstored. discriminate. Qed.

(** C2, amended. Applying the keywords mutation to ["a\nb\n"], from any
    prior state, stores ["a\nb\n"]: the single trailing empty line is
    kept. The counter of non-empty lines over the stored value reports
    exactly 2. *)
Theorem keywords_trailing_newline_kept (w : World) :
  opt_get "keywords"
    (configs (localeData (handleDataKeywordsChange Sample.a_b_newline w)))
  = VString Sample.a_b_newline
  /\ keywords_line_count (localeData (handleDataKeywordsChange Sample.a_b_newline w))
     = Some 2.
Proof.
  assert (Hstored := handleDataKeywordsChange_stored Sample.a_b_newline w).
  split; [exact Hstored|].
  unfold keywords_line_count. rewrite Hstored. reflexivity.
Qed.

End KeywordsExample.

(** * Save-time validation *)

Section Validation.

Import Moderation.

Variable locale : string.
Variable codeBasedExtensionList : option (list CodeBasedExtensionItem).

Lemma eqb_bool_decide (a b : string) : String.eqb a b = bool_decide (a = b).
Proof.
  destruct (String.eqb_spec a b);
    [by rewrite bool_decide_eq_true_2|by rewrite bool_decide_eq_false_2].
Qed.

Lemma not_system_type_spec (type : string) :
  not_system_type type = negb (Spec.is_system_type type).
Proof.
  unfold not_system_type, Spec.is_system_type.
  cbv [Js.findIndex Js.findIndex_from systemTypes].
  rewrite !eqb_bool_decide.
  assert (Hmem : type ∈ ["openai_moderation"; "keywords"; "api"]
                 <-> "openai_moderation" = type \/ "keywords" = type \/ "api" = type).
  { rewrite !elem_of_cons, elem_of_nil. intuition congruence. }
  rewrite (bool_decide_ext _ _ Hmem).
  repeat case_bool_decide; simpl; try done; tauto.
Qed.

Lemma find_ext_bool {A : Type} (p q : A -> bool) (l : list A) :
  (forall x, p x = q x) -> List.find p l = List.find q l.
Proof.
  intros Hpq. induction l as [|x l IH]; simpl; [done|].
  by rewrite Hpq, IH.
Qed.

Lemma dynamic_schema_spec (d : ModerationConfig) :
  dynamic_schema (type d) (currentProvider locale codeBasedExtensionList d)
  = if Spec.is_system_type (type d) then None
    else Spec.schema_of (providers locale codeBasedExtensionList) (type d).
Proof.
  unfold dynamic_schema, currentProvider, Spec.schema_of.
  rewrite not_system_type_spec.
  destruct (Spec.is_system_type (type d)); cbn [negb]; [done|].
  f_equal. apply find_ext_bool. intros p. apply eqb_bool_decide.
Qed.

Lemma first_missing_spec (d : ModerationConfig) (form_schema : list CodeBasedExtensionForm) :
  first_missing (configs d) form_schema
  = List.find (fun form => Spec.empty (variable form) d) form_schema.
Proof.
  induction form_schema as [|form rest IH]; simpl; [done|].
  unfold Spec.empty at 1. by destruct (truthy _).
Qed.

(** Past the first guard, [configs] is an object. *)
Lemma direction_enabled_configs (d : ModerationConfig) :
  no_direction_enabled d = false -> is_Some (configs d).
Proof.
  unfold no_direction_enabled. destruct (configs d); [by eauto|done].
Qed.

Lemma keywords_missing_spec (d : ModerationConfig) :
  is_Some (configs d) ->
  keywords_missing d
  = Some (bool_decide (type d = "keywords") && Spec.empty "keywords" d).
Proof.
  intros [c Hc]. unfold keywords_missing, Spec.empty.
  rewrite eqb_bool_decide, Hc. by case_bool_decide.
Qed.

Lemma api_extension_missing_spec (d : ModerationConfig) :
  is_Some (configs d) ->
  api_extension_missing d
  = Some (bool_decide (type d = "api") && Spec.empty "api_based_extension_id" d).
Proof.
  intros [c Hc]. unfold api_extension_missing, Spec.empty.
  rewrite eqb_bool_decide, Hc. by case_bool_decide.
Qed.

Lemma preset_missing_spec (direction : Spec.Direction) (d : ModerationConfig) :
  is_Some (configs d) ->
  preset_missing (Spec.direction_key direction) d
  = Some (Spec.direction_enabled direction d
          && negb (bool_decide (type d = "api"))
          && Spec.preset_empty direction d).
Proof.
  intros [c Hc].
  unfold preset_missing, Spec.direction_enabled, Spec.preset_empty.
  rewrite eqb_bool_decide, Hc. cbn [mbind option_bind opt_get from_option].
  f_equal. destruct (get _ c) as [|s|content|]; cbn [is_enabled]; [done|done| |done].
  destruct (content_enabled content), (has_preset_response content);
    by case_bool_decide.
Qed.

(** [handleSave] refines the validator of the specification: it surfaces
    the first error of [Spec.validate] as one toast and stops; when every
    rule passes it hands the normalised working copy to [onSave]. *)
Lemma handleSave_validate (w : World) :
  handleSave locale codeBasedExtensionList w
  = match Spec.validate (providers locale codeBasedExtensionList) (localeData w) with
    | Some e => Some (notify (error (Spec.describe locale e)) w)
    | None =>
        data ← formatData locale codeBasedExtensionList (localeData w) (localeData w);
        Some (onSave data w)
    end.
Proof.
  unfold handleSave, Spec.validate, Spec.rules. cbv zeta. cbn [Spec.first_error].
  set (d := localeData w).
  replace (no_direction_enabled d)
    with (negb (Spec.direction_enabled Spec.inputs d || Spec.direction_enabled Spec.outputs d))
    by apply negb_orb.
  destruct (Spec.direction_enabled Spec.inputs d || Spec.direction_enabled Spec.outputs d)
    eqn:Hdir; cbn [negb]; [|done].
  assert (Hc : is_Some (configs d)).
  { apply direction_enabled_configs.
    transitivity (negb (Spec.direction_enabled Spec.inputs d
                        || Spec.direction_enabled Spec.outputs d));
      [symmetry; apply negb_orb|by rewrite Hdir]. }
  rewrite keywords_missing_spec by done. cbn [mbind option_bind].
  destruct (bool_decide (type d = "keywords") && Spec.empty "keywords" d); [done|].
  rewrite api_extension_missing_spec by done. cbn [mbind option_bind].
  destruct (bool_decide (type d = "api") && Spec.empty "api_based_extension_id" d); [done|].
  rewrite dynamic_schema_spec.
  assert (Hloop :
    (if Spec.is_system_type (type d) then None
     else Spec.schema_of (providers locale codeBasedExtensionList) (type d))
      ≫= first_missing (configs d)
    = if Spec.is_system_type (type d) then None
      else form_schema ← Spec.schema_of (providers locale codeBasedExtensionList) (type d);
           List.find (fun form => Spec.empty (variable form) d) form_schema).
  { destruct (Spec.is_system_type (type d)); [done|].
    destruct (Spec.schema_of _ _) as [schema|]; [|done]. apply first_missing_spec. }
  rewrite Hloop. clear Hloop.
  destruct (Spec.is_system_type (type d)).
  - rewrite (preset_missing_spec Spec.inputs), (preset_missing_spec Spec.outputs) by done.
    cbn [mbind option_bind].
    destruct (_ && _ && Spec.preset_empty Spec.inputs d); [done|].
    by destruct (_ && _ && Spec.preset_empty Spec.outputs d).
  - destruct (Spec.schema_of _ _) as [schema|]; cbn [mbind option_bind].
    + destruct (List.find _ schema) as [form|]; [done|].
      rewrite (preset_missing_spec Spec.inputs), (preset_missing_spec Spec.outputs) by done.
      cbn [mbind option_bind].
      destruct (_ && _ && Spec.preset_empty Spec.inputs d); [done|].
      by destruct (_ && _ && Spec.preset_empty Spec.outputs d).
    + rewrite (preset_missing_spec Spec.inputs), (preset_missing_spec Spec.outputs) by done.
      cbn [mbind option_bind].
      destruct (_ && _ && Spec.preset_empty Spec.inputs d); [done|].
      by destruct (_ && _ && Spec.preset_empty Spec.outputs d).
Qed.

End Validation.

(** * Claims about [handleSave] *)

Section Save.

Import Moderation.

Variable locale : string.
Variable codeBasedExtensionList : option (list CodeBasedExtensionItem).

Local Abbreviation providers := (providers locale codeBasedExtensionList).
Local Abbreviation handleSave := (handleSave locale codeBasedExtensionList).
Local Abbreviation formatData := (formatData locale codeBasedExtensionList).




Lemma not_system_type_eqb (type : string) :
  not_system_type type = true ->
  String.eqb type "keywords" = false /\ String.eqb type "api" = false.
Proof.
  unfold not_system_type. cbv [Js.findIndex Js.findIndex_from systemTypes].
  rewrite (String.eqb_sym type "keywords"), (String.eqb_sym type "api").
  destruct (String.eqb "openai_moderation" type); [done|].
  destruct (String.eqb "keywords" type); [done|].
  by destruct (String.eqb "api" type).
Qed.


(** C7. For every working copy that passes the first four guards: when
    the type is not ['api'], a direction that is enabled with an empty
    [preset_response] makes [handleSave] stop with the preset-response
    toast; when the type is ['api'] the save goes through whatever the
    preset responses are. *)
Theorem handleSave_preset_response (w : World) :
  no_direction_enabled (localeData w) = false ->
  keywords_missing (localeData w) = Some false ->
  api_extension_missing (localeData w) = Some false ->
  dynamic_schema (type (localeData w))
    (currentProvider locale codeBasedExtensionList (localeData w))
    ≫= first_missing (configs (localeData w)) = None ->
  (type (localeData w) <> "api" ->
   forall direction content,
     direction ∈ ["inputs_configs"; "outputs_configs"] ->
     opt_get direction (configs (localeData w)) = VContent content ->
     content_enabled content = true ->
     has_preset_response content = false ->
     handleSave w
     = Some (notify (error
               (t "appDebug.feature.moderation.modal.content.errorMessage" None)) w))
  /\ (type (localeData w) = "api" ->
      exists data,
        formatData (localeData w) (localeData w) = Some data
        /\ handleSave w = Some (onSave data w)).
Proof.
  intros Hdir Hkw Hapi Hloop.
  destruct (direction_enabled_configs _ Hdir) as [c Hc].
  unfold handleSave. cbv zeta. rewrite Hdir, Hkw, Hapi. cbn [mbind option_bind].
  rewrite Hloop. unfold preset_missing. rewrite Hc. cbn [mbind option_bind].
  split.
  - intros Htype direction content Hin Hget Hon Hpreset.
    apply String.eqb_neq in Htype. rewrite Htype.
    cbn [opt_get from_option] in Hget.
    rewrite !elem_of_cons, elem_of_nil in Hin.
    destruct Hin as [->|[->|[]]].
    + by rewrite Hget, Hon, Hpreset.
    + rewrite Hget, Hon, Hpreset. cbn [negb andb].
      destruct (get "inputs_configs" c) as [| |content'|]; [done|done| |done].
      by destruct (content_enabled content'), (has_preset_response content').
  - intros Htype. rewrite Htype. cbn [String.eqb negb].
    unfold Moderation.formatData. rewrite Hc. cbn [mbind option_bind].
    eexists. split; [done|].
    replace (String.eqb "api" "api") with true by done.
    assert (Hpass : forall v,
      match v with
      | VContent content =>
          content_enabled content && negb (has_preset_response content) && negb true
      | _ => false
      end = false).
    { intros [| |content|]; [done|done| |done]. by rewrite andb_false_r. }
    by rewrite !Hpass.
Qed.

(** C9. The first guard of [handleSave] rejects every working copy whose
    [configs] is [undefined]; past that guard [configs] is an object and
    [formatData] returns; and [handleSave] never throws. *)
Theorem handleSave_configs_defined (w : World) :
  (configs (localeData w) = None ->
   handleSave w
   = Some (notify (error
             (t "appDebug.feature.moderation.modal.content.condition" None)) w))
  /\ (no_direction_enabled (localeData w) = false ->
      is_Some (configs (localeData w))
      /\ is_Some (formatData (localeData w) (localeData w)))
  /\ is_Some (handleSave w).
Proof.
  assert (Hundef : configs (localeData w) = None ->
    handleSave w
    = Some (notify (error
              (t "appDebug.feature.moderation.modal.content.condition" None)) w)).
  { intros Hc. unfold handleSave, no_direction_enabled. by rewrite Hc. }
  assert (Hformat : is_Some (configs (localeData w)) ->
    is_Some (formatData (localeData w) (localeData w))).
  { intros [c Hc]. unfold Moderation.formatData. rewrite Hc. by eexists. }
  split; [done|]. split.
  - intros Hdir. split; [|apply Hformat]; by apply direction_enabled_configs.
  - destruct (configs (localeData w)) as [c|] eqn:Hc.
    + rewrite handleSave_validate. destruct (Spec.validate _ _); [by eexists|].
      destruct Hformat as [data ->]; by eexists.
    + rewrite Hundef by done. by eexists.
Qed.

End Save.

Section SaveExamples.

Import Moderation.




(** The API provider saves although the enabled inputs direction has no
    preset response. *)
Lemma handleSave_preset_response_witness :
  exists data,
    formatData "en" Sample.catalog (localeData Sample.api_ready) (localeData Sample.api_ready)
    = Some data
    /\ handleSave "en" Sample.catalog Sample.api_ready = Some (onSave data Sample.api_ready).
Proof.
  apply (handleSave_preset_response "en" Sample.catalog Sample.api_ready).
  - reflexivity.
  - reflexivity.
  - reflexivity.
  - reflexivity.
  - reflexivity.
Defined.

End SaveExamples.

(** * Normalisation *)

Section Normalisation.

Import Moderation.

Variable locale : string.
Variable codeBasedExtensionList : option (list CodeBasedExtensionItem).

Local Abbreviation providers := (providers locale codeBasedExtensionList).
Local Abbreviation currentProvider := (currentProvider locale codeBasedExtensionList).
Local Abbreviation handleSave := (handleSave locale codeBasedExtensionList).
Local Abbreviation formatData := (formatData locale codeBasedExtensionList).

Lemma copy_fields_lookup (configs : gmap string JsValue)
    (schema : list CodeBasedExtensionForm) (params : gmap string JsValue) (k : string) :
  foldl (fun params form => assign (variable form) (get (variable form) configs) params)
        params schema !! k
  = if decide (k ∈ variable <$> schema /\ k <> "__proto__")
    then Some (get k configs) else params !! k.
Proof.
  revert params. induction schema as [|form rest IH]; intros params.
  - cbn [foldl fmap list_fmap].
    case_decide as Hin; [by destruct Hin as [?%elem_of_nil _]|done].
  - cbn [foldl]. rewrite IH, fmap_cons.
    destruct (decide (k ∈ variable <$> rest /\ k <> "__proto__")) as [[Hin Hk]|Hnotin].
    + rewrite decide_True; [done|]. split; [by right|done].
    + unfold assign. destruct (String.eqb_spec (variable form) "__proto__") as [Hproto|Hproto].
      * rewrite decide_False; [done|]. intros [[->|?]%elem_of_cons Hk]; tauto.
      * destruct (decide (variable form = k)) as [<-|Hne].
        -- rewrite lookup_insert_eq, decide_True; [done|]. split; [by left|done].
        -- rewrite lookup_insert_ne by done. rewrite decide_False; [done|].
           intros [[->|?]%elem_of_cons Hk]; tauto.
Qed.

Lemma elem_of_param_keys (type : string) (provider : option Provider) (k : string) :
  k ∈ param_keys type provider
  <-> (String.eqb type "keywords" = true /\ k = "keywords")
      \/ (String.eqb type "api" = true /\ k = "api_based_extension_id")
      \/ (exists schema, dynamic_schema type provider = Some schema
                         /\ k ∈ variable <$> schema /\ k <> "__proto__").
Proof.
  unfold param_keys. rewrite !elem_of_union.
  assert (Hkw : k ∈ (if String.eqb type "keywords" then {["keywords"]} else ∅ : gset string)
                <-> String.eqb type "keywords" = true /\ k = "keywords").
  { destruct (String.eqb type "keywords").
    - rewrite elem_of_singleton. intuition.
    - rewrite elem_of_empty. intuition congruence. }
  assert (Hapi : k ∈ (if String.eqb type "api" then {["api_based_extension_id"]} else ∅
                      : gset string)
                 <-> String.eqb type "api" = true /\ k = "api_based_extension_id").
  { destruct (String.eqb type "api").
    - rewrite elem_of_singleton. intuition.
    - rewrite elem_of_empty. intuition congruence. }
  rewrite Hkw, Hapi. clear Hkw Hapi.
  destruct (dynamic_schema type provider) as [schema|].
  - rewrite elem_of_difference, elem_of_list_to_set, elem_of_singleton. split.
    + intros [[H|H]|H]; eauto.
    + intros [H|[H|(schema' & [= <-] & H)]]; eauto.
  - rewrite elem_of_empty. split.
    + intros [[H|H]|[]]; eauto.
    + intros [H|[H|(schema' & [=] & _)]]; eauto.
Qed.

Lemma format_params_lookup (type : string) (provider : option Provider)
    (configs : gmap string JsValue) (k : string) :
  format_params type provider configs !! k
  = if decide (k ∈ param_keys type provider) then Some (get k configs) else None.
Proof.
  pose proof (elem_of_param_keys type provider k) as Hkeys.
  unfold format_params. cbv zeta.
  set (fixed := if String.eqb type "api" then _ else _).
  assert (Hfixed : fixed !! k
    = if decide ((String.eqb type "keywords" = true /\ k = "keywords")
                 \/ (String.eqb type "api" = true /\ k = "api_based_extension_id"))
      then Some (get k configs) else None).
  { subst fixed.
    destruct (String.eqb type "keywords"), (String.eqb type "api");
      rewrite ?lookup_insert, ?lookup_empty;
      repeat case_decide; subst; try done; exfalso; intuition congruence. }
  destruct (dynamic_schema type provider) as [schema|].
  - rewrite copy_fields_lookup, Hfixed. clear Hfixed.
    destruct (decide (k ∈ variable <$> schema /\ k <> "__proto__")) as [Hin|Hin].
    { rewrite decide_True; [done|]. apply Hkeys. eauto 6. }
    destruct (decide (_ \/ _)) as [Hf|Hf];
      destruct (decide (k ∈ param_keys type provider)) as [Hk|Hk];
      try done; exfalso.
    + apply Hk, Hkeys. tauto.
    + apply Hkeys in Hk as [?|[?|(schema' & [= <-] & ?)]]; tauto.
  - rewrite Hfixed. clear Hfixed.
    destruct (decide (_ \/ _)) as [Hf|Hf];
      destruct (decide (k ∈ param_keys type provider)) as [Hk|Hk];
      try done; exfalso.
    + apply Hk, Hkeys. tauto.
    + apply Hkeys in Hk as [?|[?|(schema' & [=] & ?)]]; tauto.
Qed.

Lemma formatData_fields (localeData originData : ModerationConfig)
    (c : gmap string JsValue) :
  configs originData = Some c ->
  exists c',
    formatData localeData originData
    = Some {| enabled := enabled originData; type := type originData;
              configs := Some c' |}
    /\ forall k, c' !! k
                 = formatted_field (type originData) (currentProvider localeData) c k.
Proof.
  intros Hc. unfold Moderation.formatData. rewrite Hc. cbn [mbind option_bind].
  eexists. split; [reflexivity|]. intros k.
  rewrite lookup_union, format_params_lookup. unfold formatted_field.
  destruct (decide (k ∈ param_keys _ _)) as [Hk|Hk].
  - by destruct (_ !! k).
  - rewrite !lookup_insert, lookup_empty.
    repeat case_decide; subst; try done; exfalso; intuition congruence.
Qed.

Lemma or_else_disabled_idem (v : JsValue) :
  or_else (or_else v disabled_content) disabled_content = or_else v disabled_content.
Proof. unfold or_else. by destruct (truthy v) eqn:Hv; [rewrite Hv|]. Qed.

(** Reads of own properties. *)
Lemma get_own (k : string) (v : JsValue) (c : gmap string JsValue) :
  c !! k = Some v -> v <> VInherited -> get k c = v.
Proof. unfold get. intros -> Hv. by destruct v. Qed.

Lemma get_is_inherited (k : string) (c : gmap string JsValue) :
  get k c = VInherited -> inherited k = VInherited.
Proof. unfold get. by destruct (c !! k) as [[]|]. Qed.

(** An own property that holds what was read under its name reads the
    same. *)
Lemma get_copied (k : string) (c c0 : gmap string JsValue) :
  c !! k = Some (get k c0) -> get k c = get k c0.
Proof.
  intros Hk. destruct (get k c0) eqn:Hi; try by apply get_own.
  unfold get. rewrite Hk. by apply (get_is_inherited k c0).
Qed.

Lemma get_direction_not_inherited (k : string) (c : gmap string JsValue) :
  k = "outputs_configs" \/ k = "inputs_configs" -> get k c <> VInherited.
Proof. by intros [-> | ->] ?%get_is_inherited. Qed.

Lemma or_else_disabled_not_inherited (v : JsValue) :
  v <> VInherited -> or_else v disabled_content <> VInherited.
Proof. unfold or_else. by destruct (truthy v). Qed.

Lemma formatted_field_idem (type : string) (provider : option Provider)
    (c c' : gmap string JsValue) :
  (forall k, c' !! k = formatted_field type provider c k) ->
  forall k, formatted_field type provider c' k = formatted_field type provider c k.
Proof.
  intros Hc' k. specialize (Hc' k). unfold formatted_field in *.
  destruct (decide (k ∈ param_keys type provider)); [by rewrite (get_copied k c' c)|].
  destruct (decide (k = "outputs_configs" \/ k = "inputs_configs")) as [Hk|]; [|done].
  rewrite (get_own k _ c' Hc').
  - by rewrite or_else_disabled_idem.
  - by apply or_else_disabled_not_inherited, get_direction_not_inherited.
Qed.

Lemma currentProvider_type (d d' : ModerationConfig) :
  type d = type d' -> currentProvider d = currentProvider d'.
Proof. unfold Moderation.currentProvider. by intros ->. Qed.

(** [formatData] is a projection: on its own output it changes nothing. *)
Lemma formatData_twice (d out : ModerationConfig) :
  formatData d d = Some out ->
  formatData d out = Some out /\ formatData out out = Some out.
Proof.
  intros Hout.
  destruct (configs d) as [c|] eqn:Hc;
    [|by unfold Moderation.formatData in Hout; rewrite Hc in Hout].
  destruct (formatData_fields d d c Hc) as (c' & Hd & Hc').
  rewrite Hd in Hout. injection Hout as <-.
  set (out := {| enabled := enabled d; type := type d; configs := Some c' |}).
  assert (Hagain : formatData d out = Some out).
  { destruct (formatData_fields d out c' eq_refl) as (c'' & Hout & Hc'').
    rewrite Hout. subst out. cbn [enabled type]. do 3 f_equal.
    apply map_eq. intros k. rewrite Hc'', Hc'. cbn [type].
    by apply formatted_field_idem. }
  split; [done|].
  rewrite <- Hagain. unfold Moderation.formatData.
  by rewrite (currentProvider_type out d).
Qed.

Lemma notify_not_onSave (props : ToastProps) (data : ModerationConfig) (w : World) :
  Some (notify props w) <> Some (onSave data w).
Proof.
  unfold notify, onSave. intros [= Htoasts _].
  apply (f_equal length) in Htoasts. rewrite length_app in Htoasts.
  simpl in Htoasts. lia.
Qed.

(** A save that reaches [onSave] went past every guard. *)
Lemma handleSave_saved_inv (w : World) (data : ModerationConfig) :
  handleSave w = Some (onSave data w) ->
  no_direction_enabled (localeData w) = false
  /\ dynamic_schema (type (localeData w)) (currentProvider (localeData w))
       ≫= first_missing (configs (localeData w)) = None
  /\ formatData (localeData w) (localeData w) = Some data.
Proof.
  unfold Moderation.handleSave. cbv zeta.
  destruct (no_direction_enabled (localeData w)); [by intros ?%notify_not_onSave|].
  destruct (keywords_missing (localeData w)) as [[|]|];
    cbn [mbind option_bind]; [by intros ?%notify_not_onSave| |done].
  destruct (api_extension_missing (localeData w)) as [[|]|];
    cbn [mbind option_bind]; [by intros ?%notify_not_onSave| |done].
  destruct (_ ≫= first_missing _) as [form|]; [by intros ?%notify_not_onSave|].
  destruct (preset_missing "inputs_configs" (localeData w)) as [[|]|];
    cbn [mbind option_bind]; [by intros ?%notify_not_onSave| |done].
  destruct (preset_missing "outputs_configs" (localeData w)) as [[|]|];
    cbn [mbind option_bind]; [by intros ?%notify_not_onSave| |done].
  destruct (Moderation.formatData _ _ _ _) as [data'|]; cbn [mbind option_bind]; [|done].
  unfold onSave. intros [= Hsaved]. apply app_inv_head in Hsaved.
  injection Hsaved as ->. done.
Qed.

Lemma first_missing_none (cfg : option (gmap string JsValue))
    (schema : list CodeBasedExtensionForm) (k : string) :
  first_missing cfg schema = None ->
  k ∈ variable <$> schema -> truthy (opt_get k cfg) = true.
Proof.
  induction schema as [|form rest IH]; simpl.
  - by intros _ ?%elem_of_nil.
  - destruct (truthy (opt_get (variable form) cfg)) eqn:Hform; [|done].
    cbn [negb]. intros Hrest [->|Hin]%elem_of_cons; auto.
Qed.

(** C5. For every working copy whose save passes validation, with [data]
    the normalised value handed to [onSave]: [data] is [formatData] of the
    working copy, and [formatData] of [data] is [data] again. *)
Theorem formatData_idempotent_on_save (w : World) (data : ModerationConfig) :
  handleSave w = Some (onSave data w) ->
  formatData (localeData w) (localeData w) = Some data
  /\ formatData (localeData w) data = Some data
  /\ formatData data data = Some data.
Proof.
  intros (_ & _ & Hdata)%handleSave_saved_inv.
  split; [done|]. by apply formatData_twice.
Qed.


End Normalisation.

Section NormalisationExamples.

Import Moderation.


(** Saving [Sample.dyn_filled] hands over [Sample.dyn_saved], a fixed point
    of [formatData]. *)
Lemma formatData_idempotent_on_save_witness :
  formatData "en" Sample.catalog (localeData Sample.dyn_filled) (localeData Sample.dyn_filled)
  = Some Sample.dyn_saved
  /\ formatData "en" Sample.catalog (localeData Sample.dyn_filled) Sample.dyn_saved
     = Some Sample.dyn_saved
  /\ formatData "en" Sample.catalog Sample.dyn_saved Sample.dyn_saved
     = Some Sample.dyn_saved.
Proof.
  apply (formatData_idempotent_on_save "en" Sample.catalog Sample.dyn_filled Sample.dyn_saved).
  reflexivity.
Defined.


End NormalisationExamples.

(** * The provider-type mutation *)

Section TypeChange.

Import Moderation.

(** C8. Whatever the prior state and the type argument, after
    [handleDataTypeChange] the working copy has [configs] undefined, so
    that every field read from it, [inputs_configs] and [outputs_configs]
    included, is [undefined]; [enabled] is unchanged and [type] is the
    argument. *)
Theorem handleDataTypeChange_resets_configs (type' : string) (w : World) :
  configs (localeData (handleDataTypeChange type' w)) = None
  /\ (forall k, opt_get k (configs (localeData (handleDataTypeChange type' w))) = VUndefined)
  /\ enabled (localeData (handleDataTypeChange type' w)) = enabled (localeData w)
  /\ type (localeData (handleDataTypeChange type' w)) = type'.
Proof. by repeat split. Qed.

End TypeChange.

(** * JavaScript numbers *)

Section NumberFacts.

Local Open Scope Z_scope.

Lemma iter_xO_Z (m n : positive) : Zpos (Pos.iter xO m n) = Zpos m * 2 ^ Zpos n.
Proof.
  induction n as [|n IH] using Pos.peano_ind.
  - simpl. lia.
  - rewrite Pos.iter_succ, Pos2Z.inj_xO, IH, Pos2Z.inj_succ, Z.pow_succ_r by lia. lia.
Qed.

Lemma digits2_size (p : positive) : SpecFloat.digits2_pos p = Pos.size p.
Proof. induction p as [p IH|p IH|]; simpl; by rewrite ?IH. Qed.

Lemma size_iter_xO (m n : positive) :
  Pos.size (Pos.iter xO m n) = (Pos.size m + n)%positive.
Proof.
  induction n as [|n IH] using Pos.peano_ind.
  - simpl. lia.
  - rewrite Pos.iter_succ. simpl. rewrite IH. lia.
Qed.

Lemma size_bounds (p : positive) :
  2 ^ (Zpos (Pos.size p) - 1) <= Zpos p < 2 ^ Zpos (Pos.size p).
Proof.
  pose proof (Pos.size_gt p) as Hgt. pose proof (Pos.size_le p) as Hle.
  apply Pos2Z.pos_lt_pos in Hgt. apply Pos2Z.pos_le_pos in Hle.
  rewrite Pos2Z.inj_pow in Hgt, Hle.
  split; [|exact Hgt].
  replace (Zpos (Pos.size p)) with (Z.succ (Zpos (Pos.size p) - 1)) in Hle by lia.
  rewrite Z.pow_succ_r in Hle by lia. lia.
Qed.

Lemma size_le_of_lt (p : positive) (k : Z) :
  0 <= k -> Zpos p < 2 ^ k -> Zpos (Pos.size p) <= k.
Proof.
  intros Hk Hp. destruct (size_bounds p) as [Hlow _].
  destruct (Z.le_gt_cases (Zpos (Pos.size p)) k) as [|Hgt]; [done|].
  assert (2 ^ k <= 2 ^ (Zpos (Pos.size p) - 1)) by (apply Z.pow_le_mono_r; lia).
  lia.
Qed.

Lemma size_mul_lower (p q : positive) :
  Zpos (Pos.size p) + Zpos (Pos.size q) <= Zpos (Pos.size (p * q)) + 1.
Proof.
  destruct (size_bounds p) as [Hp _], (size_bounds q) as [Hq _].
  destruct (size_bounds (p * q)) as [_ Hpq]. rewrite Pos2Z.inj_mul in Hpq.
  destruct (Z.le_gt_cases (Zpos (Pos.size p) + Zpos (Pos.size q))
              (Zpos (Pos.size (p * q)) + 1)) as [|Hgt]; [done|].
  assert (Hpow : 2 ^ Zpos (Pos.size (p * q))
                 <= 2 ^ (Zpos (Pos.size p) - 1) * 2 ^ (Zpos (Pos.size q) - 1)).
  { rewrite <- Z.pow_add_r by lia. apply Z.pow_le_mono_r; lia. }
  assert (2 ^ (Zpos (Pos.size p) - 1) * 2 ^ (Zpos (Pos.size q) - 1) <= Zpos p * Zpos q).
  { apply Z.mul_le_mono_nonneg; try lia; apply Z.pow_nonneg; lia. }
  lia.
Qed.

(** Shifting right by [n] undoes [n] doublings and loses no bit. *)
Lemma iter_shr_1 (n m : positive) :
  SpecFloat.iter_pos SpecFloat.shr_1 n
    {| SpecFloat.shr_m := Zpos (Pos.iter xO m n);
       SpecFloat.shr_r := false; SpecFloat.shr_s := false |}
  = {| SpecFloat.shr_m := Zpos m; SpecFloat.shr_r := false; SpecFloat.shr_s := false |}.
Proof.
  revert m. induction n as [n IH|n IH|]; intros m; simpl.
  - by rewrite !IH.
  - by rewrite !IH.
  - done.
Qed.

Lemma shr_fexp_canonical (m : positive) (e : Z) :
  Zpos (Pos.size m) = 53 -> -1074 <= e ->
  SpecFloat.shr_fexp 53 1024 (Zpos m) e SpecFloat.loc_Exact
  = ({| SpecFloat.shr_m := Zpos m; SpecFloat.shr_r := false; SpecFloat.shr_s := false |}, e).
Proof.
  intros Hsize He. unfold SpecFloat.shr_fexp.
  cbn [SpecFloat.Zdigits2 SpecFloat.shr_record_of_loc].
  rewrite digits2_size, Hsize. unfold SpecFloat.fexp, SpecFloat.emin.
  by replace (Z.max (53 + e - 53) (3 - 1024 - 53) - e) with 0 by lia.
Qed.

Lemma shr_fexp_shifted (m n : positive) (e : Z) :
  Zpos (Pos.size m) = 53 -> -1074 <= e + Zpos n ->
  SpecFloat.shr_fexp 53 1024 (Zpos (Pos.iter xO m n)) e SpecFloat.loc_Exact
  = ({| SpecFloat.shr_m := Zpos m; SpecFloat.shr_r := false; SpecFloat.shr_s := false |},
     e + Zpos n).
Proof.
  intros Hsize He. unfold SpecFloat.shr_fexp.
  cbn [SpecFloat.Zdigits2 SpecFloat.shr_record_of_loc].
  rewrite digits2_size, size_iter_xO, Pos2Z.inj_add, Hsize.
  unfold SpecFloat.fexp, SpecFloat.emin.
  replace (Z.max (53 + Zpos n + e - 53) (3 - 1024 - 53) - e) with (Zpos n) by lia.
  cbn [SpecFloat.shr]. by rewrite iter_shr_1.
Qed.

(** Rounding a 53-bit mantissa in the normal range changes nothing. *)
Lemma round_canonical (s : bool) (m : positive) (e : Z) :
  Zpos (Pos.size m) = 53 -> -1074 <= e <= 971 ->
  SpecFloat.binary_round_aux 53 1024 s (Zpos m) e SpecFloat.loc_Exact
  = SpecFloat.S754_finite s m e.
Proof.
  intros Hsize He. unfold SpecFloat.binary_round_aux.
  rewrite shr_fexp_canonical by (done || lia).
  cbn [SpecFloat.shr_m SpecFloat.loc_of_shr_record SpecFloat.round_nearest_even].
  rewrite shr_fexp_canonical by (done || lia). cbn [SpecFloat.shr_m].
  destruct (Z.leb_spec e (1024 - 53)); [done|lia].
Qed.

(** Rounding a 53-bit mantissa followed by [n] zero bits only moves the
    zero bits into the exponent. *)
Lemma round_shifted (s : bool) (m n : positive) (e : Z) :
  Zpos (Pos.size m) = 53 -> -1074 <= e + Zpos n <= 971 ->
  SpecFloat.binary_round_aux 53 1024 s (Zpos (Pos.iter xO m n)) e SpecFloat.loc_Exact
  = SpecFloat.S754_finite s m (e + Zpos n).
Proof.
  intros Hsize He. unfold SpecFloat.binary_round_aux.
  rewrite shr_fexp_shifted by (done || lia).
  cbn [SpecFloat.shr_m SpecFloat.loc_of_shr_record SpecFloat.round_nearest_even].
  rewrite shr_fexp_canonical by (done || lia). cbn [SpecFloat.shr_m].
  destruct (Z.leb_spec (e + Zpos n) (1024 - 53)); [done|lia].
Qed.

Lemma mantissa_Z (p : positive) :
  Zpos p < 2 ^ 53 ->
  Zpos (Js.mantissa p) = Zpos p * 2 ^ (53 - Zpos (Pos.size p))
  /\ Zpos (Pos.size (Js.mantissa p)) = 53.
Proof.
  intros Hp. pose proof (size_le_of_lt p 53 ltac:(lia) Hp) as Hsize.
  unfold Js.mantissa. destruct (53 - Zpos (Pos.size p)) as [|d|d] eqn:Hd; [| |lia].
  - rewrite Z.pow_0_r. lia.
  - rewrite iter_xO_Z, size_iter_xO. lia.
Qed.

(** The double of a whole number of magnitude below [2^53], in full. *)
Lemma number_of_Z_signed (s : bool) (p : positive) :
  Zpos p < 2 ^ 53 ->
  Js.number_of_Z (SpecFloat.cond_Zopp s (Zpos p))
  = SpecFloat.S754_finite s (Js.mantissa p) (Zpos (Pos.size p) - 53).
Proof.
  intros Hp. pose proof (size_le_of_lt p 53 ltac:(lia) Hp) as Hsize.
  destruct (mantissa_Z p Hp) as [_ Hmantissa].
  transitivity (SpecFloat.binary_round 53 1024 s p 0); [by destruct s|].
  unfold SpecFloat.binary_round.
  rewrite digits2_size. unfold SpecFloat.fexp, SpecFloat.emin.
  replace (Z.max (Zpos (Pos.size p) + 0 - 53) (3 - 1024 - 53))
    with (Zpos (Pos.size p) - 53) by lia.
  unfold SpecFloat.shl_align, Js.mantissa in *.
  replace (Zpos (Pos.size p) - 53 - 0) with (- (53 - Zpos (Pos.size p))) by lia.
  destruct (53 - Zpos (Pos.size p)) as [|d|d] eqn:Hd; [| |lia]; cbn [Z.opp].
  - replace (Zpos (Pos.size p) - 53) with 0 by lia. apply round_canonical; [done|lia].
  - apply round_canonical; [done|lia].
Qed.

Lemma mul_number_of_Z_signed (s : bool) (p q : positive) :
  Zpos p * Zpos q < 2 ^ 53 ->
  Js.mul (Js.number_of_Z (SpecFloat.cond_Zopp s (Zpos p))) (Js.number_of_Z (Zpos q))
  = Js.number_of_Z (SpecFloat.cond_Zopp s (Zpos p * Zpos q)).
Proof.
  intros Hpq.
  assert (Hp : Zpos p < 2 ^ 53) by nia. assert (Hq : Zpos q < 2 ^ 53) by nia.
  change (Zpos p * Zpos q) with (Zpos (p * q)) in *.
  change (Zpos q) with (SpecFloat.cond_Zopp false (Zpos q)) at 1.
  rewrite !number_of_Z_signed by done.
  destruct (mantissa_Z p Hp) as [Hnp _], (mantissa_Z q Hq) as [Hnq _].
  destruct (mantissa_Z (p * q) Hpq) as [Hnpq Hsize].
  pose proof (size_le_of_lt p 53 ltac:(lia) Hp) as Hsp.
  pose proof (size_le_of_lt q 53 ltac:(lia) Hq) as Hsq.
  pose proof (size_le_of_lt (p * q) 53 ltac:(lia) Hpq) as Hspq.
  pose proof (size_mul_lower p q) as Hlow.
  unfold Js.mul, SpecFloat.SFmul. rewrite xorb_false_r.
  destruct (53 + Zpos (Pos.size (p * q)) - Zpos (Pos.size p) - Zpos (Pos.size q))
    as [|n|n] eqn:Hn; [lia| |lia].
  assert (Hmant : (Js.mantissa p * Js.mantissa q)%positive
                  = Pos.iter xO (Js.mantissa (p * q)) n).
  { apply Pos2Z.inj. rewrite iter_xO_Z, Pos2Z.inj_mul, Hnp, Hnq, Hnpq, Pos2Z.inj_mul.
    rewrite <- Hn.
    replace (53 + Zpos (Pos.size (p * q)) - Zpos (Pos.size p) - Zpos (Pos.size q))
      with ((53 - Zpos (Pos.size p)) + (53 - Zpos (Pos.size q))
            - (53 - Zpos (Pos.size (p * q)))) by lia.
    set (a := 53 - Zpos (Pos.size p)). set (b := 53 - Zpos (Pos.size q)).
    set (c := 53 - Zpos (Pos.size (p * q))).
    assert (H2 : 2 ^ a * 2 ^ b = 2 ^ c * 2 ^ (a + b - c)).
    { rewrite <- !Z.pow_add_r by lia. f_equal. lia. }
    transitivity (Zpos p * Zpos q * (2 ^ a * 2 ^ b)); [ring|rewrite H2; ring]. }
  rewrite Hmant, round_shifted by (done || lia). f_equal. lia.
Qed.

(** A whole number of magnitude below [2^53] is a double. *)
Lemma integer_value_number_of_Z (n : Z) :
  - 2 ^ 53 < n < 2 ^ 53 -> Js.integer_value (Js.number_of_Z n) = Some n.
Proof.
  intros Hn.
  assert (Hsigned : forall s p, Zpos p < 2 ^ 53 ->
            Js.integer_value (Js.number_of_Z (SpecFloat.cond_Zopp s (Zpos p)))
            = Some (SpecFloat.cond_Zopp s (Zpos p))).
  { intros s p Hlt. rewrite number_of_Z_signed by done.
    destruct (mantissa_Z p Hlt) as [Hmantissa _].
    pose proof (size_le_of_lt p 53 ltac:(lia) Hlt) as Hsize.
    unfold Js.integer_value. rewrite Hmantissa.
    destruct (Z.leb_spec 0 (Zpos (Pos.size p) - 53)).
    - replace (53 - Zpos (Pos.size p)) with 0 by lia.
      replace (Zpos (Pos.size p) - 53) with 0 by lia. do 2 f_equal. lia.
    - replace (- (Zpos (Pos.size p) - 53)) with (53 - Zpos (Pos.size p)) by lia.
      rewrite Z_mod_mult, Z.eqb_refl, Z_div_mult; [done|].
      apply Z.lt_gt, Z.pow_pos_nonneg; lia. }
  destruct n as [|p|p]; [done| |].
  - apply (Hsigned false p). lia.
  - apply (Hsigned true p). lia.
Qed.

(** The product of a whole number and a positive whole number is exact
    when its magnitude is below [2^53]. *)
Lemma mul_number_of_Z (n k : Z) :
  0 < k < 2 ^ 53 -> - 2 ^ 53 < n * k < 2 ^ 53 ->
  Js.mul (Js.number_of_Z n) (Js.number_of_Z k) = Js.number_of_Z (n * k).
Proof.
  intros Hk Hlt. destruct k as [|q|q]; [lia| |lia].
  destruct n as [|p|p].
  - change (Zpos q) with (SpecFloat.cond_Zopp false (Zpos q)).
    by rewrite number_of_Z_signed by lia.
  - apply (mul_number_of_Z_signed false p q). lia.
  - apply (mul_number_of_Z_signed true p q). lia.
Qed.

End NumberFacts.

(** * The price block *)

Section Price.

Import Pricing.

Local Open Scope Z_scope.

Variable ALL_PLANS : Plan -> PlanInfo.

(** The price block of a paid plan whose monthly price is the whole
    number [n], with [10 * n] of magnitude below [2^53]. *)
Lemma price_block_whole_price (plan : Plan) (n : Z) :
  plan <> sandbox -> plan <> enterprise ->
  price (ALL_PLANS plan) = Js.number_of_Z n ->
  - 2 ^ 53 < 10 * n < 2 ^ 53 ->
  price_block ALL_PLANS plan yearly
  = [PriceAmount (Js.number_of_Z (10 * n)) (Some (Js.number_of_Z (2 * n)))
       "billing.plansCommon.year"]
  /\ price_block ALL_PLANS plan monthly
     = [PriceAmount (Js.number_of_Z n) None "billing.plansCommon.month"].
Proof.
  intros Hfree Henterprise Hprice Hn. unfold price_block. rewrite Hprice.
  rewrite !mul_number_of_Z by lia. rewrite !(Z.mul_comm n).
  by destruct plan.
Qed.

(** C10, amended. For every plan other than sandbox and enterprise: under
    the monthly range the price block shows the monthly price itself, with
    no saving; under the yearly range, when the monthly price is a whole
    number [n] of dollars with [10 * n] of magnitude below [2^53], the
    number shown is exactly [10 * n] and the saving shown exactly
    [2 * n]. *)
Theorem price_block_paid_plan (plan : Plan) :
  plan <> sandbox -> plan <> enterprise ->
  price_block ALL_PLANS plan monthly
  = [PriceAmount (price (ALL_PLANS plan)) None "billing.plansCommon.month"]
  /\ forall n : Z,
       price (ALL_PLANS plan) = Js.number_of_Z n ->
       - 2 ^ 53 < 10 * n < 2 ^ 53 ->
       exists dollars saving,
         price_block ALL_PLANS plan yearly
         = [PriceAmount dollars (Some saving) "billing.plansCommon.year"]
         /\ Js.integer_value (price (ALL_PLANS plan)) = Some n
         /\ Js.integer_value dollars = Some (10 * n)
         /\ Js.integer_value saving = Some (2 * n).
Proof.
  intros Hfree Henterprise. split; [by destruct plan|].
  intros n Hprice Hn.
  destruct (price_block_whole_price plan n Hfree Henterprise Hprice Hn) as [Hyearly _].
  exists (Js.number_of_Z (10 * n)), (Js.number_of_Z (2 * n)).
  split; [done|]. rewrite Hprice.
  repeat split; apply integer_value_number_of_Z; lia.
Qed.

End Price.

Section PriceExamples.

Import Pricing.

Local Open Scope Z_scope.

(** C10, as claimed for every paid plan, fails at a monthly price of
    [2^53 - 1] dollars: the price is that whole number, the yearly block
    shows 90071992547409904, and ten times the price is
    90071992547409910. *)
Lemma yearly_price_rounded :
  Js.integer_value (price (Sample.costly professional)) = Some 9007199254740991
  /\ (exists dollars save per,
        price_block Sample.costly professional yearly = [PriceAmount dollars save per]
        /\ Js.integer_value dollars = Some 90071992547409904)
  /\ 90071992547409904 <> 10 * 9007199254740991.
Proof.
  split; [by vm_compute|]. split; [|done].
  eexists _, _, _. split; [reflexivity|]. by vm_compute.
Qed.

(** The professional plan of [Sample.plans], at 59 dollars a month. *)
Lemma price_block_paid_plan_witness :
  price_block Sample.plans professional monthly
  = [PriceAmount (price (Sample.plans professional)) None "billing.plansCommon.month"]
  /\ exists dollars saving,
       price_block Sample.plans professional yearly
       = [PriceAmount dollars (Some saving) "billing.plansCommon.year"]
       /\ Js.integer_value (price (Sample.plans professional)) = Some 59
       /\ Js.integer_value dollars = Some (10 * 59)
       /\ Js.integer_value saving = Some (2 * 59).
Proof.
  destruct (price_block_paid_plan Sample.plans professional) as [Hmonthly Hyearly];
    [discriminate|discriminate|].
  split; [exact Hmonthly|]. apply (Hyearly 59); [reflexivity|lia].
Defined.

End PriceExamples.

(** * More on the keywords mutation *)

Section KeywordsNormalForm.

Import Moderation.

Lemma substring_all (m : nat) (s : string) :
  String.length s <= m -> String.substring 0 m s = s.
Proof.
  revert m. induction s as [|c rest IH]; intros m Hlen.
  - by destruct m.
  - destruct m as [|m]; simpl in *; [lia|]. rewrite IH; [done|lia].
Qed.

Lemma join_cons_cons (x y : string) (rest : list string) :
  Js.join (x :: y :: rest) = x +:+ String Js.LF (Js.join (y :: rest)).
Proof. done. Qed.

Lemma join_split (s : string) : Js.join (Js.split s) = s.
Proof.
  induction s as [|c rest IH]; [done|]. cbn [Js.split].
  destruct (Ascii.eqb_spec c Js.LF) as [->|Hc].
  - destruct (Js.split rest) as [|piece pieces] eqn:Hsplit.
    + by apply split_not_nil in Hsplit.
    + rewrite join_cons_cons, IH. done.
  - destruct (Js.split rest) as [|piece pieces] eqn:Hsplit.
    + by apply split_not_nil in Hsplit.
    + destruct pieces as [|piece' pieces].
      * simpl in *. by rewrite IH.
      * rewrite join_cons_cons. rewrite join_cons_cons in IH.
        by rewrite <- IH.
Qed.

Lemma no_blank_run_snoc (prev : list string) (x : string) :
  no_blank_run prev = true ->
  (x = "" -> last prev <> Some "") ->
  no_blank_run (prev ++ [x]) = true.
Proof.
  induction prev as [|y prev IH]; intros Hprev Hx; [done|].
  destruct prev as [|z prev].
  - simpl. rewrite andb_true_r. apply negb_true_iff, andb_false_iff.
    destruct (String.eqb_spec y ""), (String.eqb_spec x ""); auto.
    exfalso. apply Hx; [done|]. by subst.
  - change (no_blank_run ((y :: z :: prev) ++ [x]))
      with (negb (String.eqb y "" && String.eqb z "") && no_blank_run ((z :: prev) ++ [x])).
    change (no_blank_run (y :: z :: prev))
      with (negb (String.eqb y "" && String.eqb z "") && no_blank_run (z :: prev)) in Hprev.
    apply andb_true_iff in Hprev as [-> Hprev]. apply IH; done.
Qed.

Lemma no_blank_run_take (n : nat) (lines : list string) :
  no_blank_run lines = true -> no_blank_run (take n lines) = true.
Proof.
  revert n. induction lines as [|x rest IH]; intros n Hrun; [by destruct n|].
  destruct n as [|n]; [done|]. destruct rest as [|y rest]; [by destruct n|].
  change (no_blank_run (x :: y :: rest))
    with (negb (String.eqb x "" && String.eqb y "") && no_blank_run (y :: rest)) in Hrun.
  apply andb_true_iff in Hrun as [Hxy Hrest].
  specialize (IH n Hrest). destruct n as [|n]; [done|].
  change (take (S (S n)) (x :: y :: rest)) with (x :: y :: take n rest).
  change (take (S n) (y :: rest)) with (y :: take n rest) in IH.
  change (no_blank_run (x :: y :: take n rest))
    with (negb (String.eqb x "" && String.eqb y "") && no_blank_run (y :: take n rest)).
  by rewrite Hxy, IH.
Qed.

(** One step of the [reduce]: what is pushed, and when. *)
Lemma push_line_nonempty (prev : list string) (next : string) :
  next <> "" -> push_line prev next = prev ++ [Js.slice 0 100 next].
Proof.
  intros Hne. unfold push_line.
  by destruct (String.eqb_spec next "").
Qed.

Lemma push_line_empty (prev : list string) :
  push_line prev ""
  = if bool_decide (last prev = Some "") then prev else prev ++ [""].
Proof. unfold push_line. simpl. by case_bool_decide. Qed.

Lemma push_line_no_blank_run (prev : list string) (next : string) :
  no_blank_run prev = true -> no_blank_run (push_line prev next) = true.
Proof.
  intros Hprev. destruct (decide (next = "")) as [->|Hne].
  - rewrite push_line_empty. case_bool_decide; [done|].
    by apply no_blank_run_snoc.
  - rewrite push_line_nonempty by done. apply no_blank_run_snoc; [done|].
    intros Hslice. exfalso. apply Hne.
    destruct next as [|c next]; [done|]. discriminate Hslice.
Qed.

Lemma reduce_no_blank_run (lines prev : list string) :
  no_blank_run prev = true -> no_blank_run (foldl push_line prev lines) = true.
Proof.
  revert prev. induction lines as [|next rest IH]; intros prev Hprev; [done|].
  simpl. apply IH. by apply push_line_no_blank_run.
Qed.

(** Lines that are already within the limits go through the [reduce]
    untouched. *)
Lemma reduce_kept (lines prev : list string) :
  Forall (fun x => String.length x <= 100) lines ->
  no_blank_run lines = true ->
  (head lines = Some "" -> last prev <> Some "") ->
  foldl push_line prev lines = prev ++ lines.
Proof.
  revert prev. induction lines as [|x rest IH]; intros prev Hlen Hrun Hjoin.
  - by rewrite app_nil_r.
  - inversion_clear Hlen as [|? ? Hx Hrest]. cbn [foldl].
    assert (Hpush : push_line prev x = prev ++ [x]).
    { destruct (decide (x = "")) as [->|Hne].
      - rewrite push_line_empty. rewrite bool_decide_eq_false_2; [done|]. by apply Hjoin.
      - rewrite push_line_nonempty by done. unfold Js.slice.
        rewrite substring_all; [done|lia]. }
    rewrite Hpush, IH, <- app_assoc; [done..| |].
    + destruct rest as [|y rest]; [done|].
      change (no_blank_run (x :: y :: rest))
        with (negb (String.eqb x "" && String.eqb y "") && no_blank_run (y :: rest)) in Hrun.
      by apply andb_true_iff in Hrun as [_ Hrun].
    + rewrite last_snoc. intros Hy [= ->].
      destruct rest as [|y rest]; [done|]. injection Hy as ->.
      simpl in Hrun. done.
Qed.

(** The lines that [handleDataKeywordsChange] keeps of [value]. *)
Lemma kept_lines (value : string) :
  let kept := take 100 (foldl push_line [] (Js.split value)) in
  Forall keyword_line kept /\ length kept <= 100 /\ no_blank_run kept = true.
Proof.
  intros kept. split; [|split].
  - apply Forall_take, reduce_push_line_keeps; [constructor|apply split_one_line].
  - subst kept. rewrite length_take. lia.
  - by apply no_blank_run_take, reduce_no_blank_run.
Qed.

Lemma split_join_kept (kept : list string) :
  Forall keyword_line kept ->
  Js.split (Js.join kept) = if kept is [] then [""] else kept.
Proof.
  intros Hkept. destruct kept as [|x rest]; [done|].
  apply split_join; [done|]. eapply Forall_impl; [exact Hkept|]. by intros ? [].
Qed.

End KeywordsNormalForm.

Section KeywordsTextArea.

Import Moderation.

Lemma keywords_value_stored (value : string) (w : World) :
  ModalView.keywords_value (localeData (handleDataKeywordsChange value w))
  = VString (Js.join (take 100 (foldl push_line [] (Js.split value)))).
Proof.
  unfold ModalView.keywords_value. rewrite handleDataKeywordsChange_stored.
  unfold or_else. cbn [truthy]. unfold Js.truthy_string.
  by destruct (String.eqb_spec (Js.join (take 100 (foldl push_line [] (Js.split value)))) "")
    as [->|].
Qed.

(** Kept lines are a fixed point of the normalisation. *)
Lemma renormalise_kept (kept : list string) :
  Forall keyword_line kept -> length kept <= 100 -> no_blank_run kept = true ->
  Js.join (take 100 (foldl push_line [] (Js.split (Js.join kept)))) = Js.join kept.
Proof.
  intros Hkept Hlen Hrun. rewrite split_join_kept by done.
  destruct kept as [|x rest]; [done|].
  rewrite reduce_kept; [| |done|done].
  - by rewrite app_nil_l, take_ge.
  - eapply Forall_impl; [exact Hkept|]. by intros ? [].
Qed.

(** X1. After [handleDataKeywordsChange] the text area shows a string
    [stored], and feeding [stored] back through the mutation changes
    nothing: the stored keywords are in normal form. *)
Theorem handleDataKeywordsChange_idempotent (value : string) (w : World) :
  exists stored : string,
    ModalView.keywords_value (localeData (handleDataKeywordsChange value w))
    = VString stored
    /\ handleDataKeywordsChange stored (handleDataKeywordsChange value w)
       = handleDataKeywordsChange value w.
Proof.
  eexists. split; [apply keywords_value_stored|].
  destruct (kept_lines value) as (Hkept & Hlen & Hrun).
  unfold handleDataKeywordsChange at 1 2. unfold setLocaleData.
  rewrite renormalise_kept by done.
  cbn [localeData toasts saved enabled type configs spread from_option id].
  by rewrite insert_insert_eq.
Qed.

(** X2. The text area shows the typed text unchanged exactly when the text
    has at most 100 lines, none longer than 100 characters, and no empty
    line directly after an empty line. *)
Theorem keywords_kept_verbatim (value : string) (w : World) :
  ModalView.keywords_value (localeData (handleDataKeywordsChange value w))
  = VString value
  <-> length (Js.split value) <= 100
      /\ Forall (fun x => String.length x <= 100) (Js.split value)
      /\ no_blank_run (Js.split value) = true.
Proof.
  rewrite keywords_value_stored. split.
  - intros [= Hvalue]. destruct (kept_lines value) as (Hkept & Hlen & Hrun).
    set (kept := take 100 (foldl push_line [] (Js.split value))) in *.
    rewrite <- Hvalue at 1 2 3. rewrite split_join_kept by done.
    destruct kept as [|x rest] eqn:Hk.
    + split; [simpl; lia|]. split; [|done]. apply Forall_singleton. simpl. lia.
    + split; [done|]. split; [|done].
      eapply Forall_impl; [exact Hkept|]. by intros ? [].
  - intros (Hlen & Hlines & Hrun).
    rewrite reduce_kept by done. rewrite app_nil_l, take_ge by done.
    by rewrite join_split.
Qed.

(** X3. The stored keywords never hold an empty line directly after an
    empty line, whatever was typed. *)
Theorem keywords_no_blank_run (value : string) (w : World) :
  exists stored : string,
    opt_get "keywords" (configs (localeData (handleDataKeywordsChange value w)))
    = VString stored
    /\ no_blank_run (Js.split stored) = true.
Proof.
  eexists. split; [apply handleDataKeywordsChange_stored|].
  destruct (kept_lines value) as (Hkept & Hlen & Hrun).
  rewrite split_join_kept by done.
  by destruct (take 100 (foldl push_line [] (Js.split value))).
Qed.

(** X4. After [handleDataKeywordsChange] the line counter under the text
    area shows a number, and it is at most 100. *)
Theorem keywords_line_count_bound (value : string) (w : World) :
  exists n : nat,
    keywords_line_count (localeData (handleDataKeywordsChange value w)) = Some n
    /\ n <= 100.
Proof.
  pose proof (keywords_value_stored value w) as Hvalue.
  unfold ModalView.keywords_value in Hvalue.
  unfold keywords_line_count. rewrite Hvalue.
  eexists. split; [done|].
  destruct (kept_lines value) as (Hkept & Hlen & Hrun).
  etrans; [apply length_filter|].
  rewrite split_join_kept by done.
  destruct (take 100 (foldl push_line [] (Js.split value))); simpl in *; lia.
Qed.

End KeywordsTextArea.

(** * The field mutations *)

Section Mutations.

Import Moderation.

(** X5. [handleDataContentChange] and [handleDataApiBasedChange] write
    exactly one own property of [configs]: that property holds the new
    value, every other own property is as before (there is none when
    [configs] was undefined), and [type] and [enabled] are untouched. *)
Theorem single_field_mutations (w : World) (contentType apiBasedExtensionId : string)
    (contentConfig : ModerationContentConfig) (k : string) :
  (spread (configs (localeData (handleDataContentChange contentType contentConfig w))) !! k
   = if decide (k = contentType) then Some (VContent contentConfig)
     else spread (configs (localeData w)) !! k)
  /\ (spread (configs (localeData (handleDataApiBasedChange apiBasedExtensionId w))) !! k
      = if decide (k = "api_based_extension_id") then Some (VString apiBasedExtensionId)
        else spread (configs (localeData w)) !! k)
  /\ type (localeData (handleDataContentChange contentType contentConfig w))
     = type (localeData w)
  /\ enabled (localeData (handleDataContentChange contentType contentConfig w))
     = enabled (localeData w)
  /\ type (localeData (handleDataApiBasedChange apiBasedExtensionId w))
     = type (localeData w)
  /\ enabled (localeData (handleDataApiBasedChange apiBasedExtensionId w))
     = enabled (localeData w).
Proof.
  unfold handleDataContentChange, handleDataApiBasedChange, setLocaleData.
  cbn [localeData configs type enabled spread from_option id].
  rewrite !lookup_insert.
  repeat split; case_decide; subst; by rewrite ?decide_True, ?decide_False by done.
Qed.

(** X6. [handleDataExtraChange] merges: a field of [extraValue] becomes an
    own property of [configs] holding its string, every other own property
    of [configs] is as before. *)
Theorem handleDataExtraChange_merge (extraValue : gmap string string) (w : World)
    (k : string) :
  spread (configs (localeData (handleDataExtraChange extraValue w))) !! k
  = match extraValue !! k with
    | Some s => Some (VString s)
    | None => spread (configs (localeData w)) !! k
    end.
Proof.
  unfold handleDataExtraChange, setLocaleData.
  cbn [localeData configs spread from_option id].
  rewrite lookup_union, lookup_fmap.
  destruct (extraValue !! k) as [s|]; cbn [fmap option_fmap option_map].
  - by destruct (_ !! k).
  - by destruct (_ !! k).
Qed.

(** X7. Applied in successive renders, a content change under a key other
    than [keywords] commutes with a keywords change: both orders leave the
    same state. *)
Theorem content_change_commutes_with_keywords (w : World) (contentType value : string)
    (contentConfig : ModerationContentConfig) :
  contentType <> "keywords" ->
  handleDataContentChange contentType contentConfig (handleDataKeywordsChange value w)
  = handleDataKeywordsChange value (handleDataContentChange contentType contentConfig w).
Proof.
  intros Hne.
  unfold handleDataContentChange, handleDataKeywordsChange, setLocaleData.
  cbn [localeData configs type enabled toasts saved spread from_option id].
  do 3 f_equal. by apply insert_insert_ne.
Qed.

End Mutations.

Section MutationExamples.

Import Moderation.

(** Turning inputs moderation on before or after typing ["a\nb\n"]. *)
Lemma content_change_commutes_with_keywords_witness :
  handleDataContentChange "inputs_configs"
    {| content_enabled := true; preset_response := Some "blocked" |}
    (handleDataKeywordsChange Sample.a_b_newline (Sample.blank "keywords"))
  = handleDataKeywordsChange Sample.a_b_newline
      (handleDataContentChange "inputs_configs"
         {| content_enabled := true; preset_response := Some "blocked" |}
         (Sample.blank "keywords")).
Proof.
  apply (content_change_commutes_with_keywords (Sample.blank "keywords")
           "inputs_configs" Sample.a_b_newline).
  discriminate.
Defined.

End MutationExamples.

(** * More on saving *)

Section SaveOutcome.

Import Moderation.

Variable locale : string.
Variable codeBasedExtensionList : option (list CodeBasedExtensionItem).

Local Abbreviation currentProvider := (currentProvider locale codeBasedExtensionList).
Local Abbreviation handleSave := (handleSave locale codeBasedExtensionList).
Local Abbreviation formatData := (formatData locale codeBasedExtensionList).

(** X8. Right after a provider-type change, whatever the state was
    before: both direction blocks are rendered switched off with an empty
    preset response, the keywords text area is empty, and a save is
    refused with the "enable a direction" toast. *)
Theorem save_after_type_change_refused (type' : string) (w : World) :
  ModalView.content_config "inputs_configs" (localeData (handleDataTypeChange type' w))
  = VContent {| content_enabled := false; preset_response := Some "" |}
  /\ ModalView.content_config "outputs_configs" (localeData (handleDataTypeChange type' w))
     = VContent {| content_enabled := false; preset_response := Some "" |}
  /\ ModalView.keywords_value (localeData (handleDataTypeChange type' w)) = VString ""
  /\ handleSave (handleDataTypeChange type' w)
     = Some (notify (error (t "appDebug.feature.moderation.modal.content.condition" None))
               (handleDataTypeChange type' w)).
Proof. done. Qed.

(** The values of the six guards on a save that reaches [onSave], and
    back. *)
Lemma handleSave_saved_guards (w : World) (data : ModerationConfig) :
  handleSave w = Some (onSave data w)
  <-> no_direction_enabled (localeData w) = false
      /\ keywords_missing (localeData w) = Some false
      /\ api_extension_missing (localeData w) = Some false
      /\ dynamic_schema (type (localeData w)) (currentProvider (localeData w))
           ≫= first_missing (configs (localeData w)) = None
      /\ preset_missing "inputs_configs" (localeData w) = Some false
      /\ preset_missing "outputs_configs" (localeData w) = Some false
      /\ formatData (localeData w) (localeData w) = Some data.
Proof.
  unfold Moderation.handleSave. cbv zeta. split.
  - destruct (no_direction_enabled (localeData w)); [by intros ?%notify_not_onSave|].
    destruct (keywords_missing (localeData w)) as [[|]|];
      cbn [mbind option_bind]; [by intros ?%notify_not_onSave| |done].
    destruct (api_extension_missing (localeData w)) as [[|]|];
      cbn [mbind option_bind]; [by intros ?%notify_not_onSave| |done].
    destruct (_ ≫= first_missing _) as [form|]; [by intros ?%notify_not_onSave|].
    destruct (preset_missing "inputs_configs" (localeData w)) as [[|]|];
      cbn [mbind option_bind]; [by intros ?%notify_not_onSave| |done].
    destruct (preset_missing "outputs_configs" (localeData w)) as [[|]|];
      cbn [mbind option_bind]; [by intros ?%notify_not_onSave| |done].
    destruct (Moderation.formatData _ _ _ _) as [data'|]; cbn [mbind option_bind]; [|done].
    unfold onSave. intros [= Hsaved]. apply app_inv_head in Hsaved.
    by injection Hsaved as ->.
  - intros (-> & -> & -> & -> & -> & -> & ->). done.
Qed.

Lemma first_missing_all (cfg : option (gmap string JsValue))
    (schema : list CodeBasedExtensionForm) :
  (forall form, form ∈ schema -> truthy (opt_get (variable form) cfg) = true) ->
  first_missing cfg schema = None.
Proof.
  induction schema as [|form rest IH]; intros Hall; [done|]. simpl.
  rewrite Hall by (by left). cbn [negb]. apply IH. intros form' Hin.
  apply Hall. by right.
Qed.

Lemma preset_missing_false (direction : string) (d : ModerationConfig)
    (c : gmap string JsValue) :
  configs d = Some c ->
  preset_missing direction d = Some false
  <-> (type d <> "api" ->
       forall content, get direction c = VContent content ->
                       content_enabled content = true ->
                       has_preset_response content = true).
Proof.
  intros Hc. unfold preset_missing. rewrite Hc. cbn [mbind option_bind].
  destruct (String.eqb_spec (type d) "api") as [Hapi|Hapi]; cbn [negb].
  - split; [done|]. intros _. f_equal.
    destruct (get direction c) as [| |content|]; [done|done| |done]. by rewrite andb_false_r.
  - destruct (get direction c) as [| |content|]; [done|done| |done]. rewrite andb_true_r. split.
    + intros [= Hb] _ content' [= <-] Hon.
      rewrite Hon in Hb. by destruct (has_preset_response content).
    + intros Hp. f_equal. specialize (Hp Hapi content eq_refl).
      destruct (content_enabled content); [|done]. by rewrite Hp.
Qed.

(** X9. The save goes through, handing a value to [onSave], exactly when
    [configs] is defined, a direction is enabled, the field of the chosen
    provider is filled ([keywords], [api_based_extension_id], or every
    variable of the dynamic form schema), and, unless the type is ['api'],
    every enabled direction has a preset response. *)
Theorem handleSave_succeeds_iff (w : World) :
  (exists data, handleSave w = Some (onSave data w))
  <-> exists c,
        configs (localeData w) = Some c
        /\ (is_enabled (get "inputs_configs" c) = true
            \/ is_enabled (get "outputs_configs" c) = true)
        /\ (type (localeData w) = "keywords" -> truthy (get "keywords" c) = true)
        /\ (type (localeData w) = "api" ->
            truthy (get "api_based_extension_id" c) = true)
        /\ (forall schema form,
              dynamic_schema (type (localeData w)) (currentProvider (localeData w))
              = Some schema ->
              form ∈ schema -> truthy (get (variable form) c) = true)
        /\ (type (localeData w) <> "api" ->
            forall direction content,
              direction ∈ ["inputs_configs"; "outputs_configs"] ->
              get direction c = VContent content ->
              content_enabled content = true ->
              has_preset_response content = true).
Proof.
  set (d := localeData w). split.
  - intros [data (Hdir & Hkw & Hapi & Hloop & Hin & Hout & _)%handleSave_saved_guards].
    fold d in Hdir, Hkw, Hapi, Hloop, Hin, Hout.
    destruct (direction_enabled_configs _ Hdir) as [c Hc].
    exists c. split; [done|]. split; [|split; [|split; [|split]]].
    + unfold no_direction_enabled in Hdir. rewrite Hc in Hdir.
      cbn [opt_get from_option] in Hdir.
      destruct (is_enabled (get "inputs_configs" c)); [by left|].
      destruct (is_enabled (get "outputs_configs" c)); [by right|done].
    + intros Htype. unfold keywords_missing in Hkw. rewrite Htype, Hc in Hkw.
      cbn [String.eqb mbind option_bind] in Hkw.
      injection Hkw as Hkw. revert Hkw. by destruct (truthy _).
    + intros Htype. unfold api_extension_missing in Hapi. rewrite Htype, Hc in Hapi.
      injection Hapi as Hapi. revert Hapi. by destruct (truthy _).
    + intros schema form Hschema Hform. rewrite Hschema, Hc in Hloop.
      cbn [mbind option_bind] in Hloop.
      apply (first_missing_none _ _ (variable form) Hloop).
      by apply list_elem_of_fmap_2.
    + intros Htype direction content Hdirection.
      rewrite !elem_of_cons, elem_of_nil in Hdirection.
      destruct Hdirection as [->|[->|[]]].
      * by apply (preset_missing_false "inputs_configs" d c Hc).
      * by apply (preset_missing_false "outputs_configs" d c Hc).
  - intros (c & Hc & Hdir & Hkw & Hapi & Hloop & Hpreset).
    assert (Hformat : exists data, formatData d d = Some data).
    { unfold Moderation.formatData. rewrite Hc. by eexists. }
    destruct Hformat as [data Hdata]. exists data.
    apply handleSave_saved_guards. fold d.
    split; [|split; [|split; [|split; [|split; [|split]]]]]; [| | | | | |done].
    + unfold no_direction_enabled. rewrite Hc. cbn [opt_get from_option].
      by destruct Hdir as [->| ->]; rewrite ?andb_false_r.
    + unfold keywords_missing. rewrite Hc.
      destruct (String.eqb_spec (type d) "keywords") as [Htype|]; [|done].
      cbn [mbind option_bind]. by rewrite Hkw.
    + unfold api_extension_missing. rewrite Hc.
      destruct (String.eqb_spec (type d) "api") as [Htype|]; [|done].
      cbn [mbind option_bind]. by rewrite Hapi.
    + destruct (dynamic_schema _ _) as [schema|]; [|done]. cbn [mbind option_bind].
      apply first_missing_all. intros form Hform. rewrite Hc.
      by apply (Hloop schema).
    + apply (preset_missing_false _ _ c Hc). intros Htype content.
      apply Hpreset; [done|]. by left.
    + apply (preset_missing_false _ _ c Hc). intros Htype content.
      apply Hpreset; [done|]. right. by left.
Qed.

End SaveOutcome.

Section SaveAgain.

Import Moderation.

Variable locale : string.
Variable codeBasedExtensionList : option (list CodeBasedExtensionItem).

Local Abbreviation currentProvider := (currentProvider locale codeBasedExtensionList).
Local Abbreviation handleSave := (handleSave locale codeBasedExtensionList).
Local Abbreviation formatData := (formatData locale codeBasedExtensionList).

Lemma first_missing_ext (cfg cfg' : option (gmap string JsValue))
    (schema : list CodeBasedExtensionForm) :
  (forall form, form ∈ schema -> opt_get (variable form) cfg' = opt_get (variable form) cfg) ->
  first_missing cfg' schema = first_missing cfg schema.
Proof.
  induction schema as [|form rest IH]; intros Hext; [done|]. simpl.
  rewrite Hext by (by left). rewrite IH; [done|]. intros form' Hin. apply Hext. by right.
Qed.

(** The reading of a direction's config by the guards does not see the
    defaulting of [formatData]. *)
Lemma is_enabled_or_else (v : JsValue) :
  is_enabled (or_else v disabled_content) = is_enabled v.
Proof.
  unfold or_else. destruct v as [|s|content|]; cbn [truthy]; [done| |done|done].
  by destruct (Js.truthy_string s).
Qed.

Lemma preset_test_or_else (v : JsValue) (api : bool) :
  match or_else v disabled_content with
  | VContent content =>
      content_enabled content && negb (has_preset_response content) && negb api
  | _ => false
  end
  = match v with
    | VContent content =>
        content_enabled content && negb (has_preset_response content) && negb api
    | _ => false
    end.
Proof.
  unfold or_else. destruct v as [|s|content|]; cbn [truthy]; [done| |done|done].
  by destruct (Js.truthy_string s).
Qed.

(** The fields that the guards read are the same in the working [configs]
    and in the normalised one. *)
Lemma formatted_get (type' : string) (provider : option Provider)
    (c c' : gmap string JsValue) (k : string) :
  (forall k, c' !! k = formatted_field type' provider c k) ->
  k ∈ param_keys type' provider -> get k c' = get k c.
Proof.
  intros Hc' Hk. apply get_copied. rewrite Hc'. unfold formatted_field.
  by rewrite decide_True.
Qed.

Lemma formatted_direction (type' : string) (provider : option Provider)
    (c c' : gmap string JsValue) (k : string) :
  (forall k, c' !! k = formatted_field type' provider c k) ->
  k = "outputs_configs" \/ k = "inputs_configs" ->
  get k c' = get k c \/ get k c' = or_else (get k c) disabled_content.
Proof.
  intros Hc' Hk. specialize (Hc' k). unfold formatted_field in Hc'.
  destruct (decide (k ∈ param_keys type' provider)); [left; by apply get_copied|].
  rewrite decide_True in Hc' by done. right. apply get_own; [done|].
  by apply or_else_disabled_not_inherited, get_direction_not_inherited.
Qed.

Lemma formatted_proto (type' : string) (provider : option Provider)
    (c c' : gmap string JsValue) :
  (forall k, c' !! k = formatted_field type' provider c k) ->
  get "__proto__" c' = VInherited.
Proof.
  intros Hc'. specialize (Hc' "__proto__"). unfold formatted_field in Hc'.
  rewrite decide_False in Hc'.
  - rewrite decide_False in Hc' by (by intros [|]). unfold get. by rewrite Hc'.
  - by intros [[_ ?]|[[_ ?]|(schema & _ & _ & ?)]]%elem_of_param_keys.
Qed.

Lemma format_params_schema (type' : string) (provider provider' : option Provider)
    (c : gmap string JsValue) :
  dynamic_schema type' provider' = dynamic_schema type' provider ->
  format_params type' provider' c = format_params type' provider c.
Proof. unfold format_params. by intros ->. Qed.

(** X10. A saved value saves again to itself: when [handleSave] hands
    [data] to [onSave], a modal whose working copy is [data], under any
    locale and any fetched list that puts the same form schema in force
    for the type of [data], passes validation too and hands over [data]
    unchanged. *)
Theorem saved_value_saves_again (w w2 : World) (data : ModerationConfig)
    (locale2 : string) (list2 : option (list CodeBasedExtensionItem)) :
  handleSave w = Some (onSave data w) ->
  localeData w2 = data ->
  dynamic_schema (type data) (Moderation.currentProvider locale2 list2 data)
  = dynamic_schema (type data) (currentProvider data) ->
  Moderation.handleSave locale2 list2 w2 = Some (onSave data w2).
Proof.
  intros (Hdir & Hkw & Hapi & Hloop & Hin & Hout & Hdata)%handleSave_saved_guards
    Hw2 Hschema2.
  set (d := localeData w) in *.
  destruct (direction_enabled_configs _ Hdir) as [c Hc].
  destruct (formatData_fields locale codeBasedExtensionList d d c Hc) as (c' & Hd & Hc').
  destruct (formatData_twice locale codeBasedExtensionList d data Hdata) as [_ Hsame].
  rewrite Hd in Hdata. injection Hdata as <-.
  set (data := {| enabled := enabled d; type := type d; configs := Some c' |}) in *.
  assert (Hprovider : currentProvider data = currentProvider d) by done.
  assert (Hparam : forall k, k ∈ param_keys (type d) (currentProvider d) ->
                             get k c' = get k c).
  { intros k. by apply (formatted_get (type d) (currentProvider d)). }
  assert (Hdirection : forall k, k = "outputs_configs" \/ k = "inputs_configs" ->
    get k c' = get k c \/ get k c' = or_else (get k c) disabled_content).
  { intros k. by apply (formatted_direction (type d) (currentProvider d)). }
  apply handleSave_saved_guards. rewrite Hw2.
  split; [|split; [|split; [|split; [|split; [|split]]]]].
  - rewrite <- Hdir. unfold no_direction_enabled. subst data. rewrite Hc.
    cbn [configs opt_get from_option].
    destruct (Hdirection "inputs_configs") as [-> | ->]; [by right|..];
      destruct (Hdirection "outputs_configs") as [-> | ->]; try (by left);
      by rewrite ?is_enabled_or_else.
  - rewrite <- Hkw. unfold keywords_missing. subst data. rewrite Hc. cbn [type configs].
    destruct (String.eqb (type d) "keywords") eqn:Htype; [|done].
    cbn [mbind option_bind]. rewrite Hparam; [done|].
    apply elem_of_param_keys. by left.
  - rewrite <- Hapi. unfold api_extension_missing. subst data. rewrite Hc.
    cbn [type configs].
    destruct (String.eqb (type d) "api") eqn:Htype; [|done].
    cbn [mbind option_bind]. rewrite Hparam; [done|].
    apply elem_of_param_keys. right. by left.
  - rewrite Hschema2, Hprovider. subst data. cbn [type configs].
    destruct (dynamic_schema _ _) as [schema|] eqn:Hschema; [|done].
    rewrite Hc in Hloop. cbn [mbind option_bind] in *.
    apply first_missing_all. intros form Hform. cbn [opt_get from_option].
    destruct (decide (variable form = "__proto__")) as [->|Hproto].
    + by rewrite (formatted_proto (type d) (currentProvider d) c c').
    + rewrite Hparam.
      * apply (first_missing_none _ _ (variable form) Hloop).
        by apply list_elem_of_fmap_2.
      * apply elem_of_param_keys. right. right. exists schema.
        split; [done|]. split; [by apply list_elem_of_fmap_2|done].
  - rewrite <- Hin. unfold preset_missing. subst data. rewrite Hc.
    cbn [type configs mbind option_bind]. f_equal.
    destruct (Hdirection "inputs_configs") as [-> | ->]; [by right|done|].
    apply preset_test_or_else.
  - rewrite <- Hout. unfold preset_missing. subst data. rewrite Hc.
    cbn [type configs mbind option_bind]. f_equal.
    destruct (Hdirection "outputs_configs") as [-> | ->]; [by left|done|].
    apply preset_test_or_else.
  - etrans; [|exact Hsame]. unfold Moderation.formatData. subst data.
    cbn [configs mbind option_bind type] in *.
    by rewrite (format_params_schema _ _ _ _ Hschema2).
Qed.

End SaveAgain.

Section SaveAgainExamples.

Import Moderation.

(** [Sample.dyn_filled] saves to [Sample.dyn_saved]; a modal opened on
    [Sample.dyn_saved] under another locale, with the same list, hands it
    over unchanged. *)
Lemma saved_value_saves_again_witness :
  handleSave "zh-Hans" Sample.catalog (setLocaleData Sample.dyn_saved (Sample.blank "api"))
  = Some (onSave Sample.dyn_saved (setLocaleData Sample.dyn_saved (Sample.blank "api"))).
Proof.
  apply (saved_value_saves_again "en" Sample.catalog Sample.dyn_filled
           (setLocaleData Sample.dyn_saved (Sample.blank "api")) Sample.dyn_saved
           "zh-Hans" Sample.catalog).
  - reflexivity.
  - reflexivity.
  - reflexivity.
Defined.

End SaveAgainExamples.

(** * Toasts and the rendered controls *)

Section ToastsAndControls.

Import Moderation.

Variable locale : string.
Variable codeBasedExtensionList : option (list CodeBasedExtensionItem).

Local Abbreviation currentProvider := (currentProvider locale codeBasedExtensionList).
Local Abbreviation handleSave := (handleSave locale codeBasedExtensionList).

Lemma notify_inj (props props' : ToastProps) (w : World) :
  Some (notify props w) = Some (notify props' w) -> props = props'.
Proof.
  unfold notify. intros [= Htoasts]. apply app_inv_head in Htoasts.
  by injection Htoasts.
Qed.

Lemma first_missing_elem (cfg : option (gmap string JsValue))
    (schema : list CodeBasedExtensionForm) (form : CodeBasedExtensionForm) :
  first_missing cfg schema = Some form -> form ∈ schema.
Proof.
  induction schema as [|form' rest IH]; [done|]. simpl.
  destruct (truthy _); cbn [negb].
  - intros Hrest. right. by apply IH.
  - intros [= ->]. by left.
Qed.

Lemma preset_missing_shows_preset (direction : string) (d : ModerationConfig) :
  preset_missing direction d = Some true -> ModalView.showPreset d = true.
Proof.
  unfold preset_missing, ModalView.showPreset.
  destruct (configs d) as [c|]; [|done]. cbn [mbind option_bind].
  destruct (get direction c) as [| |content|]; [done|done| |done].
  intros [= Htest]. by apply andb_true_iff in Htest as [_ ->].
Qed.

(** X11. A toast of [handleSave] only asks for something the modal shows.
    The preset-response toast is raised only while the preset inputs are
    shown ([showPreset]); a required-field toast names either the keywords
    block while it is rendered, or the extension selector while it is
    rendered, or a field of the forms handed to [FormGeneration]. *)
Theorem toast_names_rendered_control (w : World) :
  (handleSave w
   = Some (notify (error (t "appDebug.feature.moderation.modal.content.errorMessage" None)) w)
   -> ModalView.showPreset (localeData w) = true)
  /\ (forall key,
        handleSave w = Some (notify (error (field_required key)) w) ->
        (ModalView.shows_keywords (localeData w) = true
         /\ key = if String.eqb locale "en" then "keywords" else "关键词")
        \/ (ModalView.shows_api_selector (localeData w) = true
            /\ key = if String.eqb locale "en" then "API-based Extension"
                     else "基于 API 的扩展")
        \/ (exists forms form,
              ModalView.form_generation locale codeBasedExtensionList (localeData w)
              = Some forms
              /\ form ∈ forms
              /\ key = if String.eqb locale "en" then en_US (label form)
                       else zh_Hans (label form))).
Proof.
  unfold Moderation.handleSave, ModalView.form_generation. cbv zeta.
  set (d := localeData w).
  destruct (no_direction_enabled d).
  { split; [|intros key]; by intros [=]%notify_inj. }
  destruct (keywords_missing d) as [[|]|] eqn:Hkw; cbn [mbind option_bind];
    [| |by split; [|intros key]].
  { split; [by intros [=]%notify_inj|]. intros key [= <-]%notify_inj. left.
    split; [|done]. unfold keywords_missing in Hkw. unfold ModalView.shows_keywords.
    fold d. by destruct (String.eqb (type d) "keywords"). }
  destruct (api_extension_missing d) as [[|]|] eqn:Hapi; cbn [mbind option_bind];
    [| |by split; [|intros key]].
  { split; [by intros [=]%notify_inj|]. intros key [= <-]%notify_inj. right. left.
    split; [|done]. unfold api_extension_missing in Hapi.
    unfold ModalView.shows_api_selector. fold d.
    by destruct (String.eqb (type d) "api"). }
  destruct (dynamic_schema (type d) (currentProvider d)) as [forms|] eqn:Hforms;
    cbn [mbind option_bind].
  - destruct (first_missing (configs d) forms) as [form|] eqn:Hform.
    { split; [by intros [=]%notify_inj|]. intros key [= <-]%notify_inj. right. right.
      exists forms, form. split; [done|]. split; [|done]. by eapply first_missing_elem. }
    destruct (preset_missing "inputs_configs" d) as [[|]|] eqn:Hin;
      cbn [mbind option_bind]; [| |by split; [|intros key]].
    { split; [|by intros key [=]%notify_inj].
      intros _. by eapply preset_missing_shows_preset. }
    destruct (preset_missing "outputs_configs" d) as [[|]|] eqn:Hout;
      cbn [mbind option_bind]; [| |by split; [|intros key]].
    { split; [|by intros key [=]%notify_inj].
      intros _. by eapply preset_missing_shows_preset. }
    destruct (Moderation.formatData _ _ _ _); cbn [mbind option_bind];
      [|by split; [|intros key]].
    split; [|intros key]; intros H; symmetry in H; by apply notify_not_onSave in H.
  - destruct (preset_missing "inputs_configs" d) as [[|]|] eqn:Hin;
      cbn [mbind option_bind]; [| |by split; [|intros key]].
    { split; [|by intros key [=]%notify_inj].
      intros _. by eapply preset_missing_shows_preset. }
    destruct (preset_missing "outputs_configs" d) as [[|]|] eqn:Hout;
      cbn [mbind option_bind]; [| |by split; [|intros key]].
    { split; [|by intros key [=]%notify_inj].
      intros _. by eapply preset_missing_shows_preset. }
    destruct (Moderation.formatData _ _ _ _); cbn [mbind option_bind];
      [|by split; [|intros key]].
    split; [|intros key]; intros H; symmetry in H; by apply notify_not_onSave in H.
Qed.

End ToastsAndControls.

(** * The provider list *)

Section Providers.

Import Moderation.

Variable locale : string.
Variable codeBasedExtensionList : option (list CodeBasedExtensionItem).

Local Abbreviation providers := (providers locale codeBasedExtensionList).
Local Abbreviation currentProvider := (currentProvider locale codeBasedExtensionList).
Local Abbreviation handleSave := (handleSave locale codeBasedExtensionList).

Lemma find_map {A B : Type} (p : B -> bool) (f : A -> B) (l : list A) :
  List.find p (map f l) = f <$> List.find (fun x => p (f x)) l.
Proof.
  induction l as [|x l IH]; [done|]. simpl. by destruct (p (f x)).
Qed.

Lemma not_system_type_openai (type' : string) :
  not_system_type type' = true -> String.eqb "openai_moderation" type' = false.
Proof.
  unfold not_system_type. cbv [Js.findIndex Js.findIndex_from systemTypes].
  by destruct (String.eqb "openai_moderation" type').
Qed.

(** X12. The three system providers come first in the list: when the type
    is a system type the current provider is the built-in one, without a
    form schema, even if the fetched list has an entry of the same name. *)
Theorem system_provider_not_shadowed (d : ModerationConfig) :
  type d ∈ systemTypes ->
  exists provider,
    currentProvider d = Some provider
    /\ key provider = type d
    /\ form_schema provider = None.
Proof.
  unfold systemTypes. rewrite !elem_of_cons, elem_of_nil.
  unfold Moderation.currentProvider, Moderation.providers.
  intros [->|[->|[->|[]]]]; by eexists.
Qed.

(** X13. For a type that is not a system type, the form schema in force is
    that of the first entry of the fetched list carrying that name; there
    is none while the list is not fetched or has no such entry. *)
Theorem dynamic_provider_schema (d : ModerationConfig) :
  not_system_type (type d) = true ->
  dynamic_schema (type d) (currentProvider d)
  = (codeBasedExtensionList
       ≫= List.find (fun item => String.eqb (item_name item) (type d)))
      ≫= item_form_schema.
Proof.
  intros Hdyn. unfold dynamic_schema. rewrite Hdyn.
  destruct (not_system_type_eqb _ Hdyn) as [Hkw Hapi].
  pose proof (not_system_type_openai _ Hdyn) as Hopenai.
  rewrite String.eqb_sym in Hkw, Hapi.
  unfold Moderation.currentProvider, Moderation.providers.
  cbn [app List.find key]. rewrite Hopenai, Hkw, Hapi.
  destruct codeBasedExtensionList as [data|]; [|done].
  rewrite find_map. cbn [key mbind option_bind].
  by destruct (List.find _ data).
Qed.

(** X14. While no form schema is in force for a type that is not a system
    type (the list is not fetched, or has no such entry), a save that
    passes hands over a [configs] holding the two direction configs and
    nothing else: whatever else the working copy held is dropped. *)
Theorem save_without_schema_keeps_directions_only (w : World) (data : ModerationConfig) :
  not_system_type (type (localeData w)) = true ->
  dynamic_schema (type (localeData w)) (currentProvider (localeData w)) = None ->
  handleSave w = Some (onSave data w) ->
  exists c',
    configs data = Some c'
    /\ dom c' = {[ "inputs_configs"; "outputs_configs" ]}.
Proof.
  intros Hdyn Hschema (Hdir & _ & Hdata)%handleSave_saved_inv.
  destruct (direction_enabled_configs _ Hdir) as [c Hc].
  destruct (formatData_fields locale codeBasedExtensionList (localeData w) (localeData w)
              c Hc) as (c' & Hd & Hc').
  rewrite Hd in Hdata. injection Hdata as <-. exists c'. split; [done|].
  destruct (not_system_type_eqb _ Hdyn) as [Hkw Hapi].
  assert (Hkeys : forall k, k ∉ param_keys (type (localeData w))
                                  (currentProvider (localeData w))).
  { intros k [[? _]|[[? _]|(schema & ? & _)]]%elem_of_param_keys; congruence. }
  apply set_eq. intros k.
  rewrite elem_of_dom, Hc', elem_of_union, !elem_of_singleton. unfold formatted_field.
  rewrite decide_False by apply Hkeys.
  destruct (decide (k = "outputs_configs" \/ k = "inputs_configs")) as [Hk|Hk].
  - split; [tauto|by eexists].
  - split; [by intros [? [=]]|tauto].
Qed.

End Providers.

Section ProviderExamples.

Import Moderation.

(** [Sample.dyn_filled] saved while the extension list is not fetched. *)
Lemma save_without_schema_keeps_directions_only_witness :
  exists c',
    configs {| enabled := true; type := "dyn-provider";
               configs := Some (<["outputs_configs" := disabled_content]>
                                  {[ "inputs_configs" := Sample.blocked ]}) |}
    = Some c'
    /\ dom c' = {[ "inputs_configs"; "outputs_configs" ]}.
Proof.
  apply (save_without_schema_keeps_directions_only "en" None Sample.dyn_filled).
  - reflexivity.
  - reflexivity.
  - reflexivity.
Defined.

Lemma dynamic_provider_schema_witness :
  dynamic_schema (type (localeData Sample.dyn_filled))
    (currentProvider "en" Sample.catalog (localeData Sample.dyn_filled))
  = (Sample.catalog
       ≫= List.find (fun item =>
                       String.eqb (item_name item) (type (localeData Sample.dyn_filled))))
      ≫= item_form_schema.
Proof.
  apply (dynamic_provider_schema "en" Sample.catalog (localeData Sample.dyn_filled)).
  reflexivity.
Defined.

Lemma system_provider_not_shadowed_witness :
  exists provider,
    currentProvider "en" Sample.catalog (localeData Sample.keywords_unfilled) = Some provider
    /\ key provider = type (localeData Sample.keywords_unfilled)
    /\ form_schema provider = None.
Proof.
  apply (system_provider_not_shadowed "en" Sample.catalog
           (localeData Sample.keywords_unfilled)).
  apply (bool_decide_unpack _). reflexivity.
Defined.

End ProviderExamples.

(** * From a fresh provider choice to the save *)

Section Workflow.

Import Moderation.

Variable locale : string.
Variable codeBasedExtensionList : option (list CodeBasedExtensionItem).

Local Abbreviation handleSave := (handleSave locale codeBasedExtensionList).

(** X15. Choosing the OpenAI provider, switching one direction on with a
    non-empty preset response and saving always succeeds, from any prior
    state and with any fetched list: [onSave] receives that direction's
    config, the other direction as [{ enabled: false }], and nothing
    else. *)
Theorem openai_direction_then_save (w : World) (direction other preset : string) :
  preset <> "" ->
  (direction = "inputs_configs" /\ other = "outputs_configs")
  \/ (direction = "outputs_configs" /\ other = "inputs_configs") ->
  let contentConfig := {| content_enabled := true; preset_response := Some preset |} in
  let w' := handleDataContentChange direction contentConfig
              (handleDataTypeChange "openai_moderation" w) in
  handleSave w'
  = Some (onSave {| enabled := enabled (localeData w);
                    type := "openai_moderation";
                    configs := Some (<[other := disabled_content]>
                                       {[ direction := VContent contentConfig ]}) |} w').
Proof.
  intros Hpreset Hdirection contentConfig w'.
  destruct preset as [|a preset]; [done|].
  apply handleSave_saved_guards.
  destruct Hdirection as [[-> ->]|[-> ->]]; by repeat split.
Qed.

End Workflow.

Section WorkflowExamples.

Import Moderation.

(** Leaving the keywords provider for OpenAI with inputs moderation on. *)
Lemma openai_direction_then_save_witness :
  let contentConfig := {| content_enabled := true; preset_response := Some "blocked" |} in
  let w' := handleDataContentChange "inputs_configs" contentConfig
              (handleDataTypeChange "openai_moderation" Sample.keywords_unfilled) in
  handleSave "en" Sample.catalog w'
  = Some (onSave {| enabled := enabled (localeData Sample.keywords_unfilled);
                    type := "openai_moderation";
                    configs := Some (<["outputs_configs" := disabled_content]>
                                       {[ "inputs_configs" := VContent contentConfig ]}) |}
            w').
Proof.
  apply (openai_direction_then_save "en" Sample.catalog Sample.keywords_unfilled
           "inputs_configs" "outputs_configs" "blocked").
  - discriminate.
  - left. split; reflexivity.
Defined.

End WorkflowExamples.

(** * The pricing plan card *)

Section PlanCardFacts.

Import Pricing PlanCard.

Variable ALL_PLANS : Plan -> PlanInfo.
Variable level : Plan -> Z.
Variable isCurrentWorkspaceManager : bool.

Local Abbreviation onClick := (onClick level isCurrentWorkspaceManager).

Lemma Plan_eqb_eq (a b : Plan) : Plan_eqb a b = true <-> a = b.
Proof. by destruct a, b. Qed.

(** X16. Whatever the plan, the range and the plan table, the price block
    renders exactly one of its three alternatives; for the sandbox plan it
    is the "free" label and for the enterprise plan the "contact sales"
    label, never an amount. *)
Theorem price_block_one_node (plan : Plan) (planRange : PlanRange) :
  length (price_block ALL_PLANS plan planRange) = 1
  /\ price_block ALL_PLANS sandbox planRange = [PriceLabel "billing.plansCommon.free"]
  /\ price_block ALL_PLANS enterprise planRange
     = [PriceLabel "billing.plansCommon.contactSales"].
Proof. by destruct plan. Qed.

(** X17. Under the yearly range, for a plan whose monthly price is a
    whole number [n] of dollars with [10 * n] of magnitude below [2^53],
    the amount shown and the saving shown beside it are whole numbers that
    add up to twelve times the monthly price. *)
Theorem yearly_amount_plus_saving (plan : Plan) (n : Z) (dollars : Js.number)
    (save : option Js.number) (per : string) :
  price (ALL_PLANS plan) = Js.number_of_Z n ->
  (- 2 ^ 53 < 10 * n < 2 ^ 53)%Z ->
  PriceAmount dollars save per ∈ price_block ALL_PLANS plan yearly ->
  exists saving amount saved,
    save = Some saving
    /\ Js.integer_value dollars = Some amount
    /\ Js.integer_value saving = Some saved
    /\ (amount + saved = 12 * n)%Z.
Proof.
  intros Hprice Hn. unfold price_block. rewrite Hprice.
  rewrite !mul_number_of_Z by lia.
  destruct plan; cbn [Plan_eqb PlanRange_eqb negb andb app];
    rewrite list_elem_of_singleton; intros [=]; subst.
  all: exists (Js.number_of_Z (n * 2)), (n * 10)%Z, (n * 2)%Z.
  all: split; [done|]; split; [|split; [|lia]]; apply integer_value_number_of_Z; lia.
Qed.

(** X18. The button reads "current plan" exactly on the card of the
    current plan, and a click on that card does nothing: no toast, no
    navigation. *)
Theorem current_plan_card_inert (plan currentPlan : Plan) (link : string) :
  (btnText plan currentPlan = Label "billing.plansCommon.currentPlan"
   <-> plan = currentPlan)
  /\ (plan = currentPlan -> onClick plan currentPlan link = []).
Proof.
  split.
  - unfold btnText, isCurrent. destruct (Plan_eqb plan currentPlan) eqn:Heq.
    + by apply Plan_eqb_eq in Heq.
    + split; [by destruct plan|]. intros ->. by destruct currentPlan.
  - intros ->. unfold PlanCard.onClick, isPlanDisabled. by rewrite Z.leb_refl.
Qed.

(** X19. A click opens a page only for a workspace manager and only on a
    card whose plan has a strictly higher level than the current plan; the
    page is then [link], in the same tab. A click does at most one
    thing. *)
Theorem click_navigates_only_on_upgrade (plan currentPlan : Plan)
    (link url target : string) :
  (WindowOpen url target ∈ onClick plan currentPlan link
   <-> isCurrentWorkspaceManager = true
       /\ (level currentPlan < level plan)%Z
       /\ url = link /\ target = "_self")
  /\ length (onClick plan currentPlan link) <= 1.
Proof.
  unfold PlanCard.onClick, isPlanDisabled.
  destruct (Z.leb_spec (level plan) (level currentPlan)) as [Hle|Hlt].
  - split; [|simpl; lia]. rewrite elem_of_nil. split; [done|]. intros (_ & ? & _). lia.
  - destruct isCurrentWorkspaceManager; cbn [negb]; rewrite list_elem_of_singleton;
      (split; [|simpl; lia]).
    + split; [by intros [= -> ->]|by intros (_ & _ & -> & ->)].
    + split; [done|by intros [? _]].
Qed.

End PlanCardFacts.

Section PlanCardExamples.

Import Pricing PlanCard.

(** The professional plan of [Sample.plans] under the yearly range. *)
Lemma yearly_amount_plus_saving_witness :
  exists saving amount saved,
    Some (Js.mul (Js.number_of_Z 59) (Js.number_of_Z 2)) = Some saving
    /\ Js.integer_value (Js.mul (Js.number_of_Z 59) (Js.number_of_Z 10)) = Some amount
    /\ Js.integer_value saving = Some saved
    /\ (amount + saved = 12 * 59)%Z.
Proof.
  apply (yearly_amount_plus_saving Sample.plans professional 59
           (Js.mul (Js.number_of_Z 59) (Js.number_of_Z 10))
           (Some (Js.mul (Js.number_of_Z 59) (Js.number_of_Z 2)))
           "billing.plansCommon.year"); [reflexivity|lia|].
  apply list_elem_of_singleton. reflexivity.
Defined.

End PlanCardExamples.
